(** * Google cluster provider of vscode-kubernetes-tools

    A shallow embedding of
    [src/components/clusterprovider/google/google.ts] and the properties of
    its cluster-lifecycle operations.

    Every operation of the module is an [async] function that builds a
    command line, awaits [context.shell.exec] (and sometimes a timer) and
    shapes the subprocess result.  The embedding keeps that structure: an
    [async] function is a computation over the history of the effects that
    have happened so far (commands run, timers awaited), written with a
    small state monad [Task]. *)

From Stdlib Require Import ZArith String Ascii List Lia Bool.
From stdpp Require Import base tactics option list strings gmap.
From Equations Require Import Equations.
From Equations.Prop Require Import Logic.

Local Open Scope string_scope.
Local Open Scope Z_scope.
Local Open Scope list_scope.

(** ** Effects *)

(** What a call can do to the outside world: run a command line through the
    shell collaborator, await [sleep(ms)] (module [sleep]) or await the local
    [wait(ms)], which is a bare [setTimeout]. *)
Inductive Event : Type :=
| EvExec (cmd : string)
| EvSleep (ms : Z)
| EvTimeout (ms : Z).

(** [ShellResult] of the shell collaborator: [{code, stdout, stderr}]. *)
Record ShellResult : Type := mkShellResult {
  code : Z;
  stdout : string;
  stderr : string
}.

(** Modelled from the spec: the [Shell] interface of module [shell] is not
    part of the sources; the spec gives it as [exec(commandLine)], resolving to
    a subprocess result, and the capability query [isUnix(): bool].  The
    source tests the awaited value for [undefined], so [exec] answers with an
    optional result ([None]: [undefined]); it is taken never to reject.  A
    deterministic shell is a function of everything that happened before the
    call and of the command line. *)
Record Shell : Type := mkShell {
  exec : list Event -> string -> option ShellResult;
  isUnix : bool
}.

(** The filesystem collaborator is carried by the context and never used. *)
Inductive FS : Type := OpaqueFS.

Record Context : Type := mkContext {
  fs : FS;
  shell : Shell
}.

(** An [async] function: from the history so far to its value and the
    extended history.  The history is chronological (oldest event first). *)
Definition Task (A : Type) : Type := list Event -> A * list Event.

#[global] Instance Task_ret : MRet Task := fun _ a h => (a, h).
#[global] Instance Task_bind : MBind Task :=
  fun _ _ k m h => let (a, h') := m h in k a h'.

(** [await context.shell.exec(cmd)] *)
Definition await_exec (context : Context) (cmd : string) : Task (option ShellResult) :=
  fun h => (exec (shell context) h cmd, h ++ [EvExec cmd]).

(** Modelled from the spec: [sleep] of module [sleep] is not part of the
    sources; the loop "sleeps a fixed interval" between attempts, so
    [await sleep(ms)] is a pause that only shows in the history. *)
Definition sleep (ms : Z) : Task unit :=
  fun h => (tt, h ++ [EvSleep ms]).

(** [function wait(ms) { return new Promise(resolve => setTimeout(resolve, ms)); }],
    awaited. *)
Definition wait (ms : Z) : Task unit :=
  fun h => (tt, h ++ [EvTimeout ms]).

Definition is_exec (e : Event) : bool :=
  match e with EvExec _ => true | _ => false end.

Definition is_sleep (e : Event) : bool :=
  match e with EvSleep _ => true | _ => false end.

Definition is_timeout (e : Event) : bool :=
  match e with EvTimeout _ => true | _ => false end.

(** Number of shell invocations, [sleep] pauses and [setTimeout] pauses in a
    stretch of history. *)
Definition count_exec (h : list Event) : nat := length (List.filter is_exec h).
Definition count_sleep (h : list Event) : nat := length (List.filter is_sleep h).
Definition count_timeout (h : list Event) : nat := length (List.filter is_timeout h).

(** ** JavaScript values that the module touches *)

(** The double quote character of the command templates. *)
Definition dquote : string := String (ascii_of_nat 34) EmptyString.

(** [!s] for a string [s]: only the empty string is falsy. *)
Definition string_falsy (s : string) : bool :=
  match s with EmptyString => true | String _ _ => false end.

(** A parsed JSON document.  A number is held as the text JavaScript prints
    it with ([String(n)]). *)
#[local] Set Warnings "-register-all".
Inductive json : Type :=
| JNull
| JBool (b : bool)
| JNumber (literal : string)
| JString (s : string)
| JArray (items : list json)
| JObject (fields : list (string * json)).

(** Property read [r.k] on a parsed JSON value; [None] is [undefined].
    [JSON.parse] keeps one value per key, so the first binding is the
    binding. *)
Fixpoint assoc_field (k : string) (fields : list (string * json)) : option json :=
  match fields with
  | [] => None
  | (k', v) :: rest => if String.eqb k k' then Some v else assoc_field k rest
  end.

Definition jfield (k : string) (j : json) : option json :=
  match j with
  | JObject fields => assoc_field k fields
  | _ => None
  end.

Definition as_string (j : json) : option string :=
  match j with
  | JString s => Some s
  | _ => None
  end.

(** The values a property read can give in this module: [undefined], a
    parsed JSON value, or the member that a plain object inherits from
    [Object.prototype] under the given name. *)
Inductive jsvalue : Type :=
| JsUndefined
| JsJson (j : json)
| JsObjectPrototypeMember (name : string).

Definition jsString (s : string) : jsvalue := JsJson (JString s).

(** [r.k] as a value: a missing property reads as [undefined]. *)
Definition jsRead (k : string) (r : json) : jsvalue :=
  match jfield k r with
  | Some v => JsJson v
  | None => JsUndefined
  end.

(** The names a plain object inherits from [Object.prototype]. *)
Definition objectPrototypeMembers : list string :=
  [ "constructor"; "hasOwnProperty"; "isPrototypeOf"; "propertyIsEnumerable";
    "toLocaleString"; "toString"; "valueOf"; "__proto__";
    "__defineGetter__"; "__defineSetter__"; "__lookupGetter__"; "__lookupSetter__" ].

(** [String(j)] for a parsed JSON value, as the conversion of a property key
    does it; [None] is a [TypeError].  An array joins its elements with
    commas, [null] elements as the empty string; an object is
    ["[object Object]"] unless an own [toString] property, which cannot be
    callable in a parsed document, hides the inherited method. *)
Fixpoint jsToString (j : json) : option string :=
  match j with
  | JNull => Some "null"
  | JBool true => Some "true"
  | JBool false => Some "false"
  | JNumber literal => Some literal
  | JString s => Some s
  | JArray items =>
      (fix joined (l : list json) : option string :=
         match l with
         | [] => Some EmptyString
         | x :: rest =>
             first ← match x with
                     | JNull => Some EmptyString
                     | _ => jsToString x
                     end;
             match rest with
             | [] => Some first
             | _ :: _ => others ← joined rest; Some (first +:+ "," +:+ others)
             end
         end) items
  | JObject fields =>
      match assoc_field "toString" fields with
      | Some _ => None
      | None => Some "[object Object]"
      end
  end.

(** The property key that [locations[r.name]] uses, from what [r.name] read
    ([None]: [undefined]). *)
Definition toPropertyKey (v : option json) : option string :=
  match v with
  | None => Some "undefined"
  | Some j => jsToString j
  end.

(** ** Result shapes *)

(** [Errorable<T>]: [{succeeded: true, result}] or [{succeeded: false, error}]. *)
Inductive Errorable (T : Type) : Type :=
| Succeeded (result : T)
| Failed (error : string).
Arguments Succeeded {T} result.
Arguments Failed {T} error.

Definition succeeded {T} (e : Errorable T) : bool :=
  match e with Succeeded _ => true | Failed _ => false end.

(** [ActionResult]: a labelled outcome.  [configureCluster] stores an object
    that is not a plain [Errorable] in the [result] field, so the type of that
    field is a parameter. *)
Record ActionResult (R : Type) : Type := mkActionResult {
  actionDescription : string;
  result : R
}.
Arguments mkActionResult {R} _ _.
Arguments actionDescription {R} _.
Arguments result {R} _.

Record ServiceLocation : Type := mkServiceLocation {
  displayName : jsvalue;
  isPreview : bool
}.

(** [Locations]: the dictionary built by [listLocations]. *)
Record Locations : Type := mkLocations {
  locations : gmap string jsvalue
}.

(** Modelled from the spec: [Dictionary.of] of module [utils/dictionary] is
    not part of the sources; [listLocations] folds the response "into a
    name -> displayName mapping", so the dictionary it starts from is the
    empty finite map. *)
Definition Dictionary_of : gmap string jsvalue := ∅.

(** The property read [dictionary[n]] on a plain object: its own entry when
    it has one, else the member inherited from [Object.prototype] when [n]
    names one, else [undefined]. *)
Definition propertyRead (dictionary : gmap string jsvalue) (n : string) : jsvalue :=
  match dictionary !! n with
  | Some v => v
  | None =>
      if bool_decide (n ∈ objectPrototypeMembers)
      then JsObjectPrototypeMember n
      else JsUndefined
  end.

(** [ConfigureResult]; the fields that [configureCluster] leaves out of its
    object literal read as [undefined] ([None]). *)
Record ConfigureResult : Type := mkConfigureResult {
  clusterType : string;
  gotCli : option bool;
  cliInstallFile : option string;
  cliOnDefaultPath : option bool;
  cliError : option string;
  gotCredentials : bool;
  credentialsError : option string
}.

Record WaitResult : Type := mkWaitResult {
  stillWaiting : option bool
}.

(** The untyped object returned by [getCredentials]: [{succeeded: true}] or
    [{succeeded: false, error}]. *)
Record CredentialsResult : Type := mkCredentialsResult {
  creds_succeeded : bool;
  creds_error : option string    (* [None]: no [error] property *)
}.

(** The object that [configureCluster] puts in the [result] field of its
    [ActionResult]: [{succeeded, result, error}]. *)
Record ConfigureOutcome : Type := mkConfigureOutcome {
  outcome_succeeded : bool;
  outcome_result : ConfigureResult;
  outcome_error : list string
}.

(** The [options] bag of [createCluster], as far as it is read. *)
Record ClusterMetadata : Type := mkClusterMetadata {
  clusterName : string;
  location : string
}.

Record CreateOptions : Type := mkCreateOptions {
  project : string;
  metadata : ClusterMetadata
}.

(** ** Collaborators outside the module *)

(** What the module imports and the sources do not contain.  [JSON_parse] is
    the built-in [JSON.parse] ([None]: it throws).  [Diagnostic] is the
    payload type of the exit-code helpers of module [wizard],
    [diagnosticOf] the payload they build from an accepted subprocess result,
    and [failureText] the error they report from their fixed message and the
    raw standard error, when there is one. *)
Class Externals : Type := mkExternals {
  JSON_parse : string -> option json;
  Diagnostic : Type;
  diagnosticOf : ShellResult -> Diagnostic;
  failureText : string -> option string -> string
}.

Section Google.
Context `{Externals}.

(** Modelled from the spec: [fromShellExitCodeAndStandardError] of module
    [wizard] is not part of the sources.  "Success is determined by zero exit
    code AND empty standard-error"; otherwise "a Failure carrying the raw error
    text", and a failure with the fixed message when the subprocess could not
    be invoked. *)
Definition fromShellExitCodeAndStandardError
    (sr : option ShellResult) (invocationFailureMessage : string) : Errorable Diagnostic :=
  match sr with
  | None => Failed (failureText invocationFailureMessage None)
  | Some r =>
      if (code r =? 0) && string_falsy (stderr r)
      then Succeeded (diagnosticOf r)
      else Failed (failureText invocationFailureMessage (Some (stderr r)))
  end.

(** Modelled from the spec: [fromShellExitCodeOnly] of module [wizard] is not
    part of the sources.  "Success is determined by exit code alone
    (standard-error content is not inspected here)". *)
Definition fromShellExitCodeOnly
    (sr : option ShellResult) (invocationFailureMessage : string) : Errorable Diagnostic :=
  match sr with
  | None => Failed (failureText invocationFailureMessage None)
  | Some r =>
      if code r =? 0
      then Succeeded (diagnosticOf r)
      else Failed (failureText invocationFailureMessage (Some (stderr r)))
  end.

(** Modelled from the spec: [fromShellJson] of module [wizard] is not part of
    the sources.  A subprocess-derived value "is only considered valid if the
    process exit code is zero and, where specified, standard-error is empty";
    for the operations that parse JSON the spec names no condition on standard
    error, so the exit code is the gate.  A non-zero exit is a failure with
    the raw standard error; an output that "cannot be parsed as expected JSON"
    is a failure with the fixed message, detail swallowed.  Otherwise the
    parsed document goes through [processor]; a processor that throws is
    [None], and a call without processor hands the document out as it is
    ([Some]). *)
Definition fromShellJson {T : Type}
    (sr : option ShellResult) (invocationFailureMessage : string)
    (processor : json -> option T) : Errorable T :=
  match sr with
  | None => Failed (failureText invocationFailureMessage None)
  | Some r =>
      if code r =? 0
      then match JSON_parse (stdout r) ≫= processor with
           | Some v => Succeeded v
           | None => Failed (failureText invocationFailureMessage None)
           end
      else Failed (failureText invocationFailureMessage (Some (stderr r)))
  end.

(** ** The operations of google.ts *)

Definition listProjectsAsync (context : Context) : Task (Errorable json) :=
  sr ← await_exec context "gcloud projects list";
  mret (fromShellJson sr "Unable to list Google projects" Some).

Definition getProjectList (context : Context) : Task (ActionResult (Errorable json)) :=
  projects ← listProjectsAsync context;
  mret {| actionDescription := "listing projects"; result := projects |}.

Definition setProjectCmd (project : string) : string :=
  "gcloud config set project " +:+ dquote +:+ project +:+ dquote.

Definition setProjectAsync (context : Context) (project : string)
    : Task (Errorable Diagnostic) :=
  sr ← await_exec context (setProjectCmd project);
  mret (fromShellExitCodeAndStandardError sr "Unable to set gcloud CLI project").

Definition listClustersCmd : string := "gcloud container clusters list".

(** The parsed document is handed out as it is (cast to [ClusterInfo[]]
    without validation). *)
Definition listClustersAsync (context : Context) : Task (Errorable json) :=
  sr ← await_exec context listClustersCmd;
  mret (fromShellJson sr "Unable to list Kubernetes clusters" Some).

Definition getClusterList (context : Context) (project : string)
    : Task (ActionResult (Errorable json)) :=
  (* log in *)
  login ← setProjectAsync context project;
  (* [failed(login)] narrows [login] to its failure shape: the [Failed] case *)
  match login with
  | Failed login_error =>
      mret {| actionDescription := "logging into project";
              result := Failed login_error |}
  | Succeeded _ =>
      (* list clusters *)
      clusters ← listClustersAsync context;
      mret {| actionDescription := "listing clusters"; result := clusters |}
  end.

(** What [for (const r of response)] visits; [None] is the [TypeError] of a
    value that is not iterable.  A string is iterable, character by character
    (by code point in JavaScript: every element is a string either way, which
    is all the loop body can tell). *)
Definition iterated (response : json) : option (list json) :=
  match response with
  | JArray items => Some items
  | JString s =>
      Some ((fun c => JString (String c EmptyString)) <$> list_ascii_of_string s)
  | _ => None
  end.

(** [locations[r.name] = r.displayName]: reading a property of [null] throws;
    otherwise the entry is stored under the name converted to a property key,
    whatever [r.displayName] is, [undefined] included. *)
Definition assignLocation (locations : gmap string jsvalue) (r : json)
    : option (gmap string jsvalue) :=
  match r with
  | JNull => None
  | _ =>
      key ← toPropertyKey (jfield "name" r);
      Some (<[key := jsRead "displayName" r]> locations)
  end.

(** The processor of [listLocations]: folds the parsed response into a
    dictionary, a later entry overwriting an earlier one stored under the same
    name. *)
Definition locationsOfResponse (response : json) : option Locations :=
  rs ← iterated response;
  dict ← foldl (fun acc r => locations ← acc; assignLocation locations r)
               (Some Dictionary_of) rs;
  Some {| locations := dict |}.

Definition listLocationsCmd (unix : bool) : string :=
  let query := "[].{name:name,displayName:displayName}" in
  let query := if unix then "'" +:+ query +:+ "'" else query in
  "az account list-locations --query " +:+ query +:+ " -ojson".

Definition listLocations (context : Context) : Task (Errorable Locations) :=
  sr ← await_exec context (listLocationsCmd (isUnix (shell context)));
  mret (fromShellJson sr "Unable to list Google regions" locationsOfResponse).

Definition locationDisplayNames
    (names : list string) (preview : bool) (locationInfo : Locations)
    : list ServiceLocation :=
  (fun n => {| displayName := propertyRead (locations locationInfo) n;
               isPreview := preview |}) <$> names.

Definition locationDisplayNamesEx
    (production preview : list string) (locationInfo : Locations)
    : list ServiceLocation :=
  let result := locationDisplayNames production false locationInfo in
  result ++ locationDisplayNames preview true locationInfo.

(** There is no CLI for this, so the list is hardwired in the source. *)
Definition productionRegions : list string :=
  [ "australiaeast";
    "australiasoutheast";
    "canadacentral";
    "canadaeast";
    "centralindia";
    "centralus";
    "eastasia";
    "eastus";
    "eastus2";
    "francecentral";
    "japaneast";
    "northeurope";
    "southeastasia";
    "southindia";
    "uksouth";
    "ukwest";
    "westeurope";
    "westus";
    "westus2" ].

Definition listGkeLocations (context : Context) : Task (Errorable (list ServiceLocation)) :=
  locationInfo ← listLocations context;
  match locationInfo with
  | Failed locationInfo_error => mret (Failed locationInfo_error)
  | Succeeded locations =>
      let result := locationDisplayNamesEx productionRegions [] locations in
      mret (Succeeded result)
  end.

(** [name.startsWith('Basic_')] *)
Definition startsWith (name pre : string) : bool := String.prefix pre name.

(** The processor of [listVMSizes]:
    [response.map((r) => r.name).filter((name) => !name.startsWith('Basic_'))].
    It throws ([None]) when the document is not an array or when some [name]
    is not a string. *)
Definition vmSizesOfResponse (response : json) : option (list string) :=
  match response with
  | JArray rs =>
      names ← mapM (fun r => jfield "name" r ≫= as_string) rs;
      Some (List.filter (fun name => negb (startsWith name "Basic_")) names)
  | _ => None
  end.

Definition listVMSizesCmd (location : string) : string :=
  "az vm list-sizes -l " +:+ dquote +:+ location +:+ dquote +:+ " -ojson".

Definition listVMSizes (context : Context) (location : string)
    : Task (Errorable (list string)) :=
  sr ← await_exec context (listVMSizesCmd location);
  mret (fromShellJson sr "Unable to list VM sizes" vmSizesOfResponse).

Definition createClusterCmd (options : CreateOptions) : string :=
  "gcloud container clusters create " +:+ dquote +:+ clusterName (metadata options)
    +:+ dquote +:+ " --zone " +:+ dquote +:+ location (metadata options)
    +:+ dquote +:+ " --async ".

Definition execCreateClusterCmd (context : Context) (options : CreateOptions)
    : Task (Errorable Diagnostic) :=
  let createCmd := createClusterCmd options in
  sr ← await_exec context createCmd;
  mret (fromShellExitCodeOnly sr "Unable to call Gcloud CLI to create cluster").

Definition createCluster (context : Context) (options : CreateOptions)
    : Task (ActionResult (Errorable Diagnostic)) :=
  login ← setProjectAsync context (project options);
  if negb (succeeded login) then
    mret {| actionDescription := "logging into project"; result := login |}
  else
    createCluster ← execCreateClusterCmd context options;
    mret {| actionDescription := "creating cluster"; result := createCluster |}.

Definition waitForCluster (context : Context) (clusterName : string)
    : Task (Errorable WaitResult) :=
  (* TODO in the source: figure out how to wait for real... *)
  _ ← wait (300 * 1000);
  mret (Succeeded {| stillWaiting := Some false |}).
End Google.

(** ** Credentials: the bounded retry loop *)

Definition getCredentialsCmd (clusterName : string) : string :=
  "gcloud container clusters get-credentials " +:+ clusterName.

(** [sr && sr.code === 0 && !sr.stderr] *)
Definition credentialsFetched (sr : option ShellResult) : bool :=
  match sr with
  | Some r => (code r =? 0) && string_falsy (stderr r)
  | None => false
  end.

(** [sr ? sr.stderr : "Unable to invoke gcloud CLI"] *)
Definition credentialsErrorText (sr : option ShellResult) : string :=
  match sr with
  | Some r => stderr r
  | None => "Unable to invoke gcloud CLI"
  end.

(** One turn of the [while (true)] loop of [getCredentials], started with the
    counter at [attempts0]: [inr] is a [return], [inl] carries the counter into
    the next turn. *)
Definition getCredentialsTurn
    (context : Context) (clusterName : string) (maxAttempts attempts0 : Z)
    : Task (Z + CredentialsResult) :=
  let attempts := attempts0 + 1 in
  let cmd := getCredentialsCmd clusterName in
  sr ← await_exec context cmd;
  if credentialsFetched sr then
    mret (inr {| creds_succeeded := true; creds_error := None |})
  else if bool_decide (attempts < maxAttempts) then
    _ ← sleep 15000;
    mret (inl attempts)
  else
    mret (inr {| creds_succeeded := false;
                 creds_error := Some (credentialsErrorText sr) |}).

(** The loop itself: repeat the turn until it returns.  A turn that goes
    round again has counted one attempt and has attempts left, which is what
    makes the loop finite. *)
Equations? getCredentialsLoop
    (context : Context) (clusterName : string) (maxAttempts attempts0 : Z)
    (h : list Event) : CredentialsResult * list Event
    by wf (Z.to_nat (maxAttempts - attempts0)) lt :=
  getCredentialsLoop context clusterName maxAttempts attempts0 h
    with inspect (getCredentialsTurn context clusterName maxAttempts attempts0 h) => {
    | exist _ (inl attempts, h') turn :=
        getCredentialsLoop context clusterName maxAttempts attempts h';
    | exist _ (inr returned, h') _ := (returned, h') }.
Proof.
  revert turn.
  unfold getCredentialsTurn, mbind, Task_bind, mret, Task_ret, await_exec, sleep.
  destruct (credentialsFetched _); [discriminate |].
  case_bool_decide; [| discriminate].
  intros [= <- _]. lia.
Qed.

(** [maxAttempts] is an integer here, as in the one call of the module
    (the literal 5): the counter and the bound are compared as integers. *)
Definition getCredentials
    (context : Context) (clusterName : string) (maxAttempts : Z)
    : Task CredentialsResult :=
  let attempts := 0 in
  getCredentialsLoop context clusterName maxAttempts attempts.

Definition configureCluster
    (context : Context) (clusterType : string) (clusterName : string)
    : Task (ActionResult ConfigureOutcome) :=
  credsResult ← getCredentials context clusterName 5;
  let result :=
    {| clusterType := clusterType;
       gotCli := None;
       cliInstallFile := None;
       cliOnDefaultPath := None;
       cliError := None;
       gotCredentials := creds_succeeded credsResult;
       credentialsError := creds_error credsResult |} in
  mret {| actionDescription := "configuring Kubernetes";
          result := {| outcome_succeeded := creds_succeeded credsResult;
                       outcome_result := result;
                       outcome_error := [] |} |}.

(** ** Vocabulary of the properties *)

(** A subprocess result with exit code zero and empty standard error. *)
Definition CleanExit (sr : option ShellResult) : Prop :=
  exists r, sr = Some r /\ code r = 0 /\ stderr r = EmptyString.

(** The history that [n] unsuccessful turns of the credentials loop leave
    behind: each one ran the command and then slept fifteen seconds. *)
Fixpoint retryHistory (cmd : string) (n : nat) : list Event :=
  match n with
  | O => []
  | S n' => EvExec cmd :: EvSleep 15000 :: retryHistory cmd n'
  end.

(** What the shell answers to the attempt that follows [i] unsuccessful
    turns of the credentials loop started at history [h]. *)
Definition attemptResult
    (context : Context) (clusterName : string) (h : list Event) (i : nat)
    : option ShellResult :=
  let cmd := getCredentialsCmd clusterName in
  exec (shell context) (h ++ retryHistory cmd i) cmd.

(** The first clean exit comes after exactly [i] unsuccessful turns. *)
Definition FirstCleanAfter
    (context : Context) (clusterName : string) (h : list Event) (i : nat) : Prop :=
  (forall j, (j < i)%nat -> ~ CleanExit (attemptResult context clusterName h j))
  /\ CleanExit (attemptResult context clusterName h i).

(** What a run of the credentials loop that may still make [S n] attempts
    comes to: a clean exit after [i <= n] unsuccessful turns, or [S n]
    unsuccessful attempts and the error of the last one. *)
Definition LoopOutcome
    (context : Context) (clusterName : string) (h : list Event) (n : nat)
    (res : CredentialsResult * list Event) : Prop :=
  let cmd := getCredentialsCmd clusterName in
  (exists i, (i <= n)%nat
     /\ FirstCleanAfter context clusterName h i
     /\ res = ({| creds_succeeded := true; creds_error := None |},
               h ++ retryHistory cmd i ++ [EvExec cmd]))
  \/ ((forall j, (j <= n)%nat -> ~ CleanExit (attemptResult context clusterName h j))
     /\ res = ({| creds_succeeded := false;
                  creds_error :=
                    Some (credentialsErrorText (attemptResult context clusterName h n)) |},
               h ++ retryHistory cmd n ++ [EvExec cmd])).

(** The entry of [listGkeLocations] for a region the fetched dictionary does
    not know. *)
Definition unnamedLocation : ServiceLocation :=
  {| displayName := JsUndefined; isPreview := false |}.

(** The milliseconds a stretch of history spends in [sleep]. *)
Definition sleep_ms (e : Event) : Z :=
  match e with EvSleep ms => ms | _ => 0 end.

Definition total_sleep (h : list Event) : Z :=
  foldr (fun e total => sleep_ms e + total) 0 h.

(** The dictionary that assigning the [(name, displayName)] pairs one after
    the other leaves, started from [start]. *)
Definition assignAll (start : gmap string jsvalue) (pairs : list (string * string))
    : gmap string jsvalue :=
  foldl (fun dict pair => <[pair.1 := jsString pair.2]> dict) start pairs.

(** ** Test doubles *)

Module Mock.

(** A context around a shell. *)
Definition context (s : Shell) : Context := {| fs := OpaqueFS; shell := s |}.

(** A shell that gives every command the same answer. *)
Definition constShell (answer : option ShellResult) : Shell :=
  {| exec := fun _ _ => answer; isUnix := true |}.

(** A shell whose first [n] commands exit with code 1 and a message on
    standard error, and whose later commands exit cleanly. *)
Definition flakyShell (n : nat) : Shell :=
  {| exec := fun h _ =>
       if decide (count_exec h < n)%nat
       then Some {| code := 1; stdout := EmptyString; stderr := "cluster not ready" |}
       else Some {| code := 0; stdout := EmptyString; stderr := EmptyString |};
     isUnix := true |}.

(** A shell whose first [n] commands exit cleanly and whose later commands
    exit with code 0 and a warning on standard error. *)
Definition warningShell (n : nat) : Shell :=
  {| exec := fun h _ =>
       if decide (count_exec h < n)%nat
       then Some {| code := 0; stdout := EmptyString; stderr := EmptyString |}
       else Some {| code := 0; stdout := "Creating cluster";
                    stderr := "WARNING: node auto-upgrade is on" |};
     isUnix := true |}.

Definition quoted (s : string) : string := dquote +:+ s +:+ dquote.

(** [[{"name":"eastus","displayName":"East US"}]] *)
Definition regionsDocument : string :=
  "[{" +:+ quoted "name" +:+ ":" +:+ quoted "eastus" +:+ ","
       +:+ quoted "displayName" +:+ ":" +:+ quoted "East US" +:+ "}]".

Definition regionsJson : json :=
  JArray [JObject [("name", JString "eastus"); ("displayName", JString "East US")]].

(** [[{"name":"Standard_A1"},{"name":"Basic_A0"},{"name":"Standard_D2"}]] *)
Definition sizesDocument : string :=
  "[{" +:+ quoted "name" +:+ ":" +:+ quoted "Standard_A1" +:+ "},{"
       +:+ quoted "name" +:+ ":" +:+ quoted "Basic_A0" +:+ "},{"
       +:+ quoted "name" +:+ ":" +:+ quoted "Standard_D2" +:+ "}]".

Definition sizesJson : json :=
  JArray [JObject [("name", JString "Standard_A1")];
          JObject [("name", JString "Basic_A0")];
          JObject [("name", JString "Standard_D2")]].

(** [[{"name":"eastus"}]]: an entry without [displayName]. *)
Definition namesOnlyDocument : string :=
  "[{" +:+ quoted "name" +:+ ":" +:+ quoted "eastus" +:+ "}]".

Definition namesOnlyJson : json := JArray [JObject [("name", JString "eastus")]].

(** A parser that knows the documents above. *)
Definition parse (document : string) : option json :=
  if String.eqb document regionsDocument then Some regionsJson
  else if String.eqb document sizesDocument then Some sizesJson
  else if String.eqb document namesOnlyDocument then Some namesOnlyJson
  else None.

Definition externals : Externals :=
  {| JSON_parse := parse;
     Diagnostic := string;
     diagnosticOf := stdout;
     failureText := fun message raw =>
       match raw with Some text => text | None => message end |}.

(** A subprocess result with the given exit code, output and error text. *)
Definition answered (exitCode : Z) (out err : string) : option ShellResult :=
  Some {| code := exitCode; stdout := out; stderr := err |}.

Definition options : CreateOptions :=
  {| project := "demo-project";
     metadata := {| clusterName := "demo-cluster"; location := "us-east1-b" |} |}.

End Mock.

(** ** Basic facts *)

Lemma string_falsy_spec (s : string) : string_falsy s = true <-> s = EmptyString.
Proof. destruct s; simpl; split; congruence. Qed.

Lemma accepted_spec (r : ShellResult) :
  (code r =? 0) && string_falsy (stderr r) = true
  <-> code r = 0 /\ stderr r = EmptyString.
Proof. rewrite andb_true_iff, Z.eqb_eq, string_falsy_spec. reflexivity. Qed.

Lemma credentialsFetched_spec (sr : option ShellResult) :
  credentialsFetched sr = true <-> CleanExit sr.
Proof.
  unfold CleanExit. destruct sr as [r |]; simpl.
  - rewrite accepted_spec. split.
    + intros Hr. exists r. split; [reflexivity | exact Hr].
    + intros (r' & [= <-] & Hr). exact Hr.
  - split; [discriminate |]. intros (r' & Hr & _). discriminate.
Qed.

Lemma credentialsFetched_false (sr : option ShellResult) :
  credentialsFetched sr = false <-> ~ CleanExit sr.
Proof.
  rewrite <- credentialsFetched_spec. destruct (credentialsFetched sr); split;
    congruence.
Qed.

Lemma CleanExit_dec (sr : option ShellResult) : {CleanExit sr} + {~ CleanExit sr}.
Proof.
  destruct (credentialsFetched sr) eqn:E.
  - left. apply credentialsFetched_spec, E.
  - right. apply credentialsFetched_false, E.
Defined.

Lemma count_exec_app (h1 h2 : list Event) :
  count_exec (h1 ++ h2) = (count_exec h1 + count_exec h2)%nat.
Proof. unfold count_exec. rewrite List.filter_app, length_app. reflexivity. Qed.

Lemma count_sleep_app (h1 h2 : list Event) :
  count_sleep (h1 ++ h2) = (count_sleep h1 + count_sleep h2)%nat.
Proof. unfold count_sleep. rewrite List.filter_app, length_app. reflexivity. Qed.

Lemma count_timeout_app (h1 h2 : list Event) :
  count_timeout (h1 ++ h2) = (count_timeout h1 + count_timeout h2)%nat.
Proof. unfold count_timeout. rewrite List.filter_app, length_app. reflexivity. Qed.

Lemma retryHistory_counts (cmd : string) (n : nat) :
  count_exec (retryHistory cmd n) = n
  /\ count_sleep (retryHistory cmd n) = n
  /\ count_timeout (retryHistory cmd n) = O.
Proof.
  induction n as [| n (IHe & IHs & IHt)]; [repeat split |].
  unfold count_exec, count_sleep, count_timeout in *. simpl.
  rewrite IHe, IHs, IHt. repeat split.
Qed.

Lemma retryHistory_sleeps (cmd : string) (n : nat) (ms : Z) :
  EvSleep ms ∈ retryHistory cmd n -> ms = 15000.
Proof.
  induction n as [| n IH]; simpl; intros Hin.
  - inversion Hin.
  - apply elem_of_cons in Hin as [Hin | Hin]; [discriminate |].
    apply elem_of_cons in Hin as [Hin | Hin]; [congruence | auto].
Qed.

Lemma attemptResult_shift context clusterName h (i : nat) :
  attemptResult context clusterName
    (h ++ [EvExec (getCredentialsCmd clusterName); EvSleep 15000]) i
  = attemptResult context clusterName h (S i).
Proof. unfold attemptResult. simpl. rewrite <- app_assoc. reflexivity. Qed.

(** ** The credentials loop *)

Lemma getCredentialsLoop_step context clusterName maxAttempts attempts0 h :
  getCredentialsLoop context clusterName maxAttempts attempts0 h =
  match getCredentialsTurn context clusterName maxAttempts attempts0 h with
  | (inl attempts, h') => getCredentialsLoop context clusterName maxAttempts attempts h'
  | (inr returned, h') => (returned, h')
  end.
Proof.
  rewrite getCredentialsLoop_equation_1.
  generalize (inspect (getCredentialsTurn context clusterName maxAttempts attempts0 h)).
  intros [[[attempts | returned] h'] turn]; simpl; rewrite turn; reflexivity.
Qed.

(** One turn, spelled out on the shell's answer. *)
Lemma getCredentialsTurn_cases context clusterName maxAttempts attempts0 h :
  let cmd := getCredentialsCmd clusterName in
  let sr := exec (shell context) h cmd in
  getCredentialsTurn context clusterName maxAttempts attempts0 h =
  if credentialsFetched sr then
    (inr {| creds_succeeded := true; creds_error := None |}, h ++ [EvExec cmd])
  else if bool_decide (attempts0 + 1 < maxAttempts) then
    (inl (attempts0 + 1), h ++ [EvExec cmd; EvSleep 15000])
  else
    (inr {| creds_succeeded := false;
            creds_error := Some (credentialsErrorText sr) |}, h ++ [EvExec cmd]).
Proof.
  unfold getCredentialsTurn, mbind, Task_bind, mret, Task_ret, await_exec, sleep.
  simpl. destruct (credentialsFetched _); [reflexivity |].
  case_bool_decide; [| reflexivity].
  rewrite <- app_assoc. reflexivity.
Qed.

Lemma attemptResult_O context clusterName h :
  attemptResult context clusterName h O
  = exec (shell context) h (getCredentialsCmd clusterName).
Proof. unfold attemptResult. simpl. rewrite app_nil_r. reflexivity. Qed.

Lemma getCredentialsLoop_outcome context clusterName maxAttempts (n : nat) :
  forall attempts0 h,
    n = Z.to_nat (maxAttempts - attempts0 - 1) ->
    LoopOutcome context clusterName h n
      (getCredentialsLoop context clusterName maxAttempts attempts0 h).
Proof.
  induction n as [| n IH]; intros attempts0 h Hn;
    rewrite getCredentialsLoop_step, getCredentialsTurn_cases;
    rewrite <- attemptResult_O;
    destruct (credentialsFetched (attemptResult context clusterName h 0)) eqn:Hsr.
  - left. exists O. split; [lia |]. split; [| reflexivity].
    split; [intros j Hj; lia | apply credentialsFetched_spec, Hsr].
  - rewrite bool_decide_eq_false_2 by lia. right. split; [| reflexivity].
    intros j Hj. replace j with O by lia. apply credentialsFetched_false, Hsr.
  - left. exists O. split; [lia |]. split; [| reflexivity].
    split; [intros j Hj; lia | apply credentialsFetched_spec, Hsr].
  - rewrite bool_decide_eq_true_2 by lia.
    destruct (IH (attempts0 + 1)
                (h ++ [EvExec (getCredentialsCmd clusterName); EvSleep 15000]))
      as [(i & Hi & [Hbefore Hclean] & ->) | [Hall ->]]; [lia | |].
    + left. exists (S i). split; [lia |]. split.
      * split.
        -- intros [| j] Hj; [apply credentialsFetched_false, Hsr |].
           rewrite <- attemptResult_shift. apply Hbefore. lia.
        -- rewrite <- attemptResult_shift. exact Hclean.
      * simpl. rewrite <- !app_assoc. reflexivity.
    + right. split.
      * intros [| j] Hj; [apply credentialsFetched_false, Hsr |].
        rewrite <- attemptResult_shift. apply Hall. lia.
      * rewrite attemptResult_shift. simpl. rewrite <- !app_assoc. reflexivity.
Qed.

Lemma FirstCleanAfter_unique context clusterName h (i j : nat) :
  FirstCleanAfter context clusterName h i ->
  FirstCleanAfter context clusterName h j -> i = j.
Proof.
  intros [Hi Hci] [Hj Hcj].
  destruct (Nat.lt_trichotomy i j) as [Hlt | [Heq | Hgt]]; [| exact Heq |].
  - destruct (Hj i Hlt Hci).
  - destruct (Hi j Hgt Hcj).
Qed.

(** Every run of the credentials loop ends, and ends in one of the two ways
    of [LoopOutcome]. *)
Lemma getCredentials_outcome context clusterName (maxAttempts : Z) h :
  LoopOutcome context clusterName h (Z.to_nat (maxAttempts - 1))
    (getCredentials context clusterName maxAttempts h).
Proof.
  unfold getCredentials. apply getCredentialsLoop_outcome. f_equal. lia.
Qed.

(** The result object of [getCredentials] has an [error] exactly when it
    reports failure. *)
Lemma getCredentials_error_shape context clusterName (maxAttempts : Z) h :
  let creds := fst (getCredentials context clusterName maxAttempts h) in
  if creds_succeeded creds
  then creds_error creds = None
  else exists text, creds_error creds = Some text.
Proof.
  destruct (getCredentials_outcome context clusterName maxAttempts h)
    as [(i & _ & _ & ->) | [_ ->]]; simpl; eauto.
Qed.

Lemma attempts_history_counts (cmd : string) (n : nat) :
  count_exec (retryHistory cmd n ++ [EvExec cmd]) = S n
  /\ count_sleep (retryHistory cmd n ++ [EvExec cmd]) = n
  /\ (forall ms, EvSleep ms ∈ retryHistory cmd n ++ [EvExec cmd] -> ms = 15000).
Proof.
  destruct (retryHistory_counts cmd n) as (He & Hs & _).
  rewrite count_exec_app, count_sleep_app, He, Hs.
  split; [unfold count_exec; simpl; lia |].
  split; [unfold count_sleep; simpl; lia |].
  intros ms Hin. apply elem_of_app in Hin as [Hin | Hin].
  - eapply retryHistory_sleeps, Hin.
  - apply list_elem_of_singleton in Hin. discriminate.
Qed.

(** The always-failing mock of the spec's tests: failure after five
    invocations and four sleeps, with the last standard-error text. *)
Example getCredentials_always_failing :
  let cmd := getCredentialsCmd "demo-cluster" in
  getCredentials (Mock.context (Mock.flakyShell 5)) "demo-cluster" 5 []
  = ({| creds_succeeded := false; creds_error := Some "cluster not ready" |},
     [EvExec cmd; EvSleep 15000; EvExec cmd; EvSleep 15000; EvExec cmd;
      EvSleep 15000; EvExec cmd; EvSleep 15000; EvExec cmd]).
Proof. reflexivity. Qed.

(** A shell that cannot run the command at all. *)
Example getCredentials_not_invocable :
  fst (getCredentials (Mock.context (Mock.constShell None)) "demo-cluster" 5 [])
  = {| creds_succeeded := false;
       creds_error := Some "Unable to invoke gcloud CLI" |}.
Proof. reflexivity. Qed.

(** Success on the second attempt: two invocations, one sleep. *)
Example getCredentials_second_attempt :
  let cmd := getCredentialsCmd "demo-cluster" in
  getCredentials (Mock.context (Mock.flakyShell 1)) "demo-cluster" 5 []
  = ({| creds_succeeded := true; creds_error := None |},
     [EvExec cmd; EvSleep 15000; EvExec cmd]).
Proof. reflexivity. Qed.

(** ** C1: the bounded retry of [getCredentials] *)

(** C1.  With [maxAttempts = 5], [getCredentials] behaves as follows, from
    any history [h] and for any shell.  Attempt [k] is the one that follows
    [k - 1] unsuccessful turns.
    - If attempt [k <= 5] is the first to exit with code 0 and empty standard
      error, the call returns [{succeeded: true}] after exactly [k] shell
      invocations and [k - 1] sleeps, each of 15000 ms.
    - If none of the five attempts does, the call returns failure after
      exactly 5 invocations (and 4 sleeps), with the standard-error text of
      the fifth attempt, or ["Unable to invoke gcloud CLI"] when the fifth
      subprocess result is absent.
    - One of these two cases always applies: the loop ends, and only by
      success or by exhausting the attempts. *)
Theorem C1_getCredentials_five_attempts context clusterName h :
  let cmd := getCredentialsCmd clusterName in
  let attempt (k : nat) := attemptResult context clusterName h (k - 1) in
  let run := getCredentials context clusterName 5 h in
  (forall k : nat, (1 <= k <= 5)%nat ->
     (forall j, (1 <= j < k)%nat -> ~ CleanExit (attempt j)) ->
     CleanExit (attempt k) ->
     exists new,
       run = ({| creds_succeeded := true; creds_error := None |}, h ++ new)
       /\ new = retryHistory cmd (k - 1) ++ [EvExec cmd]
       /\ count_exec new = k
       /\ count_sleep new = (k - 1)%nat
       /\ (forall ms, EvSleep ms ∈ new -> ms = 15000))
  /\ ((forall j, (1 <= j <= 5)%nat -> ~ CleanExit (attempt j)) ->
      exists new,
        run = ({| creds_succeeded := false;
                  creds_error :=
                    Some (match attempt 5%nat with
                          | Some sr => stderr sr
                          | None => "Unable to invoke gcloud CLI"
                          end) |}, h ++ new)
        /\ new = retryHistory cmd 4 ++ [EvExec cmd]
        /\ count_exec new = 5%nat
        /\ count_sleep new = 4%nat
        /\ (forall ms, EvSleep ms ∈ new -> ms = 15000))
  /\ ((exists k : nat, (1 <= k <= 5)%nat
         /\ (forall j, (1 <= j < k)%nat -> ~ CleanExit (attempt j))
         /\ CleanExit (attempt k)
         /\ creds_succeeded (fst run) = true)
      \/ ((forall j, (1 <= j <= 5)%nat -> ~ CleanExit (attempt j))
          /\ creds_succeeded (fst run) = false)).
Proof.
  intros cmd attempt run.
  pose proof (getCredentials_outcome context clusterName 5 h) as Hrun.
  change (Z.to_nat (5 - 1)) with 4%nat in Hrun. fold run in Hrun.
  assert (Hfirst : forall k : nat, (1 <= k)%nat ->
            (forall j, (1 <= j < k)%nat -> ~ CleanExit (attempt j)) ->
            CleanExit (attempt k) ->
            FirstCleanAfter context clusterName h (k - 1)).
  { intros k Hk Hbefore Hclean. split; [| exact Hclean].
    intros j Hj. specialize (Hbefore (S j)). unfold attempt in Hbefore.
    replace (S j - 1)%nat with j in Hbefore by lia. apply Hbefore. lia. }
  split; [| split].
  - intros k Hk Hbefore Hclean.
    exists (retryHistory cmd (k - 1) ++ [EvExec cmd]).
    destruct (attempts_history_counts cmd (k - 1)) as (He & Hs & Hms).
    split; [| split; [reflexivity | split; [lia | split; [exact Hs | exact Hms]]]].
    destruct Hrun as [(i & Hi & Hfi & ->) | [Hall _]].
    + rewrite (FirstCleanAfter_unique _ _ _ _ _ (Hfirst k (proj1 Hk) Hbefore Hclean) Hfi).
      reflexivity.
    + destruct (Hall (k - 1)%nat); [lia | exact Hclean].
  - intros Hnone.
    exists (retryHistory cmd 4 ++ [EvExec cmd]).
    destruct (attempts_history_counts cmd 4) as (He & Hs & Hms).
    split; [| split; [reflexivity | split; [exact He | split; [exact Hs | exact Hms]]]].
    destruct Hrun as [(i & Hi & [_ Hci] & _) | [_ ->]]; [| reflexivity].
    destruct (Hnone (S i)); [lia |]. unfold attempt.
    replace (S i - 1)%nat with i by lia. exact Hci.
  - destruct Hrun as [(i & Hi & [Hbefore Hci] & ->) | [Hall ->]].
    + left. exists (S i). unfold attempt.
      replace (S i - 1)%nat with i by lia.
      split; [lia |]. split; [| split; [exact Hci | reflexivity]].
      intros j Hj. apply Hbefore. lia.
    + right. split; [| reflexivity].
      intros j Hj. apply Hall. lia.
Qed.

(** The mock of the spec's test: a shell that fails four times and then
    succeeds gives success after five invocations and four sleeps. *)
Lemma C1_getCredentials_five_attempts_witness :
  exists new,
    getCredentials (Mock.context (Mock.flakyShell 4)) "demo-cluster" 5 []
    = ({| creds_succeeded := true; creds_error := None |}, [] ++ new)
    /\ count_exec new = 5%nat
    /\ count_sleep new = 4%nat.
Proof.
  destruct (C1_getCredentials_five_attempts
              (Mock.context (Mock.flakyShell 4)) "demo-cluster" [])
    as (Hsuccess & _ & _).
  destruct (Hsuccess 5%nat) as (new & Hrun & _ & He & Hs & _).
  - lia.
  - intros j Hj (r & Hr & Hcode & _).
    assert (Hj' : j = 1%nat \/ j = 2%nat \/ j = 3%nat \/ j = 4%nat) by lia.
    destruct Hj' as [-> | [-> | [-> | ->]]]; vm_compute in Hr;
      injection Hr as <-; discriminate Hcode.
  - eexists. split; [reflexivity |]. split; reflexivity.
  - exists new. split; [exact Hrun |]. split; [exact He | exact Hs].
Defined.

(** ** The two-phase operations: set the project, then act *)

Section Phases.
Context `{Externals}.

Lemma setProjectAsync_run context project h :
  setProjectAsync context project h =
  (fromShellExitCodeAndStandardError
     (exec (shell context) h (setProjectCmd project))
     "Unable to set gcloud CLI project",
   h ++ [EvExec (setProjectCmd project)]).
Proof. reflexivity. Qed.

Lemma fromShellExitCodeAndStandardError_succeeded sr message :
  succeeded (fromShellExitCodeAndStandardError sr message) = true <-> CleanExit sr.
Proof.
  rewrite <- credentialsFetched_spec.
  destruct sr as [r |]; simpl; [| reflexivity].
  destruct ((code r =? 0) && string_falsy (stderr r)); reflexivity.
Qed.

Lemma fromShellExitCodeOnly_succeeded sr message :
  succeeded (fromShellExitCodeOnly sr message) = true
  <-> exists r, sr = Some r /\ code r = 0.
Proof.
  destruct sr as [r |]; simpl.
  - destruct (Z.eqb_spec (code r) 0) as [Hc | Hc]; simpl; split.
    + intros _. exists r. split; [reflexivity | exact Hc].
    + reflexivity.
    + discriminate.
    + intros (r' & [= <-] & Hc'). contradiction.
  - split; [discriminate |]. intros (r & Hr & _). discriminate.
Qed.

Lemma getClusterList_login_failed context project h error h' :
  setProjectAsync context project h = (Failed error, h') ->
  getClusterList context project h =
  ({| actionDescription := "logging into project"; result := Failed error |}, h').
Proof.
  intros Hlogin. unfold getClusterList, mbind, Task_bind.
  rewrite Hlogin. reflexivity.
Qed.

Lemma createCluster_login_failed context options h error h' :
  setProjectAsync context (project options) h = (Failed error, h') ->
  createCluster context options h =
  ({| actionDescription := "logging into project"; result := Failed error |}, h').
Proof.
  intros Hlogin. unfold createCluster, mbind, Task_bind.
  rewrite Hlogin. reflexivity.
Qed.

Lemma createCluster_logged_in context options h diagnostic h' :
  setProjectAsync context (project options) h = (Succeeded diagnostic, h') ->
  createCluster context options h =
  ({| actionDescription := "creating cluster";
      result := fromShellExitCodeOnly
                  (exec (shell context) h' (createClusterCmd options))
                  "Unable to call Gcloud CLI to create cluster" |},
   h' ++ [EvExec (createClusterCmd options)]).
Proof.
  intros Hlogin. unfold createCluster, mbind, Task_bind.
  rewrite Hlogin. reflexivity.
Qed.

End Phases.

(** C2.  When [setProjectAsync] fails, [getClusterList] and [createCluster]
    both return the description ["logging into project"] with a failure
    carrying the error of [setProjectAsync], and the history they leave is the
    history [setProjectAsync] left: the set-project command is the only shell
    invocation, the list-clusters and create-cluster commands are not run. *)
Theorem C2_login_failure_short_circuits `{Externals}
    context (options : CreateOptions) h error h' :
  setProjectAsync context (project options) h = (Failed error, h') ->
  getClusterList context (project options) h
    = ({| actionDescription := "logging into project"; result := Failed error |}, h')
  /\ createCluster context options h
    = ({| actionDescription := "logging into project"; result := Failed error |}, h')
  /\ h' = h ++ [EvExec (setProjectCmd (project options))]
  /\ (EvExec listClustersCmd ∉ [EvExec (setProjectCmd (project options))])
  /\ (EvExec (createClusterCmd options) ∉ [EvExec (setProjectCmd (project options))]).
Proof.
  intros Hlogin.
  split; [apply getClusterList_login_failed, Hlogin |].
  split; [apply createCluster_login_failed, Hlogin |].
  rewrite setProjectAsync_run in Hlogin. injection Hlogin as _ <-.
  split; [reflexivity |].
  split; intros Hin; apply list_elem_of_singleton in Hin; discriminate Hin.
Qed.

(** A shell that answers the set-project command with exit code 1. *)
Lemma C2_login_failure_short_circuits_witness :
  let context := Mock.context (Mock.flakyShell 1) in
  let login := [EvExec (setProjectCmd "demo-project")] in
  @getClusterList Mock.externals context "demo-project" []
    = ({| actionDescription := "logging into project";
          result := Failed "cluster not ready" |}, login)
  /\ @createCluster Mock.externals context Mock.options []
    = ({| actionDescription := "logging into project";
          result := Failed "cluster not ready" |}, login).
Proof.
  destruct (@C2_login_failure_short_circuits Mock.externals
              (Mock.context (Mock.flakyShell 1)) Mock.options []
              "cluster not ready" [EvExec (setProjectCmd "demo-project")])
    as (Hlist & Hcreate & _).
  - reflexivity.
  - split; [exact Hlist | exact Hcreate].
Defined.

(** C3.  [setProjectAsync] succeeds exactly when the subprocess result has
    exit code 0 and empty standard error; it reports failure whenever the exit
    code is not 0 or standard error is not empty, exit code 0 with text on
    standard error included. *)
Theorem C3_setProjectAsync_outcome `{Externals} context project h :
  let sr := exec (shell context) h (setProjectCmd project) in
  let outcome := fst (setProjectAsync context project h) in
  (succeeded outcome = true
     <-> exists r, sr = Some r /\ code r = 0 /\ stderr r = EmptyString)
  /\ (forall r, sr = Some r ->
        code r <> 0 \/ stderr r <> EmptyString -> succeeded outcome = false)
  /\ (forall r, sr = Some r ->
        code r = 0 -> stderr r <> EmptyString -> exists error, outcome = Failed error).
Proof.
  intros sr outcome. subst outcome. rewrite setProjectAsync_run. simpl. fold sr.
  pose proof (fromShellExitCodeAndStandardError_succeeded sr
                "Unable to set gcloud CLI project") as Hiff.
  split; [exact Hiff |].
  assert (Hfail : forall r, sr = Some r ->
            code r <> 0 \/ stderr r <> EmptyString ->
            succeeded (fromShellExitCodeAndStandardError sr
                         "Unable to set gcloud CLI project") = false).
  { intros r Hr Hbad. apply not_true_is_false. rewrite Hiff.
    intros (r' & Hr' & Hc & He). rewrite Hr in Hr'. injection Hr' as <-.
    destruct Hbad; contradiction. }
  split; [exact Hfail |].
  intros r Hr _ He. specialize (Hfail r Hr (or_intror He)).
  destruct (fromShellExitCodeAndStandardError sr _) as [d | error];
    [discriminate | eauto].
Qed.

(** Exit code 0 with a warning on standard error is a failure. *)
Lemma C3_setProjectAsync_outcome_witness :
  succeeded (fst (@setProjectAsync Mock.externals
                    (Mock.context (Mock.constShell (Mock.answered 0 "ok" "WARNING")))
                    "demo-project" [])) = false.
Proof.
  destruct (@C3_setProjectAsync_outcome Mock.externals
              (Mock.context (Mock.constShell (Mock.answered 0 "ok" "WARNING")))
              "demo-project" []) as (_ & Hfail & _).
  apply (Hfail {| code := 0; stdout := "ok"; stderr := "WARNING" |}).
  - reflexivity.
  - right. discriminate.
Defined.

(** C8.  Once [setProjectAsync] has succeeded, [createCluster] runs the
    create-cluster command and returns the description ["creating cluster"];
    it reports success exactly when that command's exit code is 0, whatever
    standard error holds. *)
Theorem C8_createCluster_exit_code_only `{Externals}
    context (options : CreateOptions) h diagnostic h' :
  setProjectAsync context (project options) h = (Succeeded diagnostic, h') ->
  let sr := exec (shell context) h' (createClusterCmd options) in
  exists outcome,
    createCluster context options h
    = ({| actionDescription := "creating cluster"; result := outcome |},
       h' ++ [EvExec (createClusterCmd options)])
    /\ (succeeded outcome = true <-> exists r, sr = Some r /\ code r = 0)
    /\ (forall r, sr = Some r -> code r = 0 -> succeeded outcome = true)
    /\ (forall r, sr = Some r -> code r <> 0 -> succeeded outcome = false).
Proof.
  intros Hlogin sr. eexists.
  split; [exact (createCluster_logged_in _ _ _ _ _ Hlogin) |].
  fold sr.
  pose proof (fromShellExitCodeOnly_succeeded sr
                "Unable to call Gcloud CLI to create cluster") as Hiff.
  split; [exact Hiff |]. split.
  - intros r Hr Hc. apply Hiff. eauto.
  - intros r Hr Hc. apply not_true_is_false. rewrite Hiff.
    intros (r' & Hr' & Hc'). rewrite Hr in Hr'. injection Hr' as <-. contradiction.
Qed.

(** Standard error does not matter: exit code 0 with a warning on standard
    error is a created cluster. *)
Lemma C8_createCluster_exit_code_only_witness :
  exists outcome,
    @createCluster Mock.externals (Mock.context (Mock.warningShell 1)) Mock.options []
    = ({| actionDescription := "creating cluster"; result := outcome |},
       [EvExec (setProjectCmd "demo-project")]
         ++ [EvExec (createClusterCmd Mock.options)])
    /\ succeeded outcome = true.
Proof.
  destruct (@C8_createCluster_exit_code_only Mock.externals
              (Mock.context (Mock.warningShell 1)) Mock.options []
              EmptyString [EvExec (setProjectCmd "demo-project")])
    as (outcome & Hrun & _ & Hzero & _).
  - reflexivity.
  - exists outcome. split; [exact Hrun |].
    apply (Hzero {| code := 0; stdout := "Creating cluster";
                    stderr := "WARNING: node auto-upgrade is on" |});
      reflexivity.
Defined.

(** ** Regions and VM sizes *)

Section Listings.
Context `{Externals}.

Lemma listGkeLocations_run context h :
  listGkeLocations context h =
  match listLocations context h with
  | (Succeeded info, h') =>
      (Succeeded (locationDisplayNamesEx productionRegions [] info), h')
  | (Failed error, h') => (Failed error, h')
  end.
Proof.
  unfold listGkeLocations, mbind, Task_bind.
  destruct (listLocations context h) as [[info | error] h']; reflexivity.
Qed.

Lemma locationDisplayNamesEx_production (production : list string) info :
  locationDisplayNamesEx production [] info =
  (fun n => {| displayName := propertyRead (locations info) n;
               isPreview := false |})
    <$> production.
Proof. unfold locationDisplayNamesEx, locationDisplayNames. apply app_nil_r. Qed.

Lemma listVMSizes_run context location h :
  listVMSizes context location h =
  (fromShellJson (exec (shell context) h (listVMSizesCmd location))
     "Unable to list VM sizes" vmSizesOfResponse,
   h ++ [EvExec (listVMSizesCmd location)]).
Proof. reflexivity. Qed.

Lemma fromShellJson_processed {T} (r : ShellResult) message
    (processor : json -> option T) document value :
  code r = 0 ->
  JSON_parse (stdout r) = Some document ->
  processor document = Some value ->
  fromShellJson (Some r) message processor = Succeeded value.
Proof.
  intros Hc Hparse Hvalue. simpl.
  rewrite (proj2 (Z.eqb_eq (code r) 0) Hc), Hparse. simpl.
  rewrite Hvalue. reflexivity.
Qed.

End Listings.

(** None of the hardwired regions is a name that a plain object inherits. *)
Lemma productionRegions_not_inherited (region : string) :
  region ∈ productionRegions -> region ∉ objectPrototypeMembers.
Proof.
  revert region. apply Forall_forall.
  apply (bool_decide_unpack _). vm_compute. exact I.
Qed.

Lemma propertyRead_missing (dictionary : gmap string jsvalue) (n : string) :
  dictionary !! n = None -> n ∉ objectPrototypeMembers ->
  propertyRead dictionary n = JsUndefined.
Proof.
  intros Hmissing Hplain. unfold propertyRead. rewrite Hmissing.
  rewrite bool_decide_eq_false_2 by exact Hplain. reflexivity.
Qed.

Lemma filter_sublist {A} (keep : A -> bool) (l : list A) :
  sublist (List.filter keep l) l.
Proof.
  induction l as [| x l IH]; simpl; [constructor |].
  destruct (keep x); [apply sublist_skip | apply sublist_cons]; exact IH.
Qed.

Lemma startsWith_filtered (names : list string) :
  Forall (fun name => startsWith name "Basic_" = false)
    (List.filter (fun name => negb (startsWith name "Basic_")) names).
Proof.
  apply Forall_forall. intros name Hin. apply list_elem_of_In, filter_In in Hin.
  destruct Hin as [_ Hkeep]. apply negb_true_iff, Hkeep.
Qed.

(** C4, as the spec states it, fails: with the fetched dictionary
    [{"eastus": "East US"}], [listGkeLocations] does not return the single
    location [{displayName: "East US", isPreview: false}]. *)
Lemma C4_single_location_counterexample :
  let context :=
    Mock.context (Mock.constShell (Mock.answered 0 Mock.regionsDocument EmptyString)) in
  fst (@listLocations Mock.externals context [])
    = Succeeded {| locations := {["eastus" := jsString "East US"]} |}
  /\ fst (@listGkeLocations Mock.externals context [])
    <> Succeeded [{| displayName := jsString "East US"; isPreview := false |}].
Proof.
  split; [vm_compute; reflexivity |].
  vm_compute. intros Hsingle. discriminate Hsingle.
Qed.

(** C4, amended.  When [listLocations] succeeds with the dictionary
    [{"eastus": "East US"}], [listGkeLocations] returns success with nineteen
    locations, one per hardwired production region and in that order, all with
    [isPreview = false]: the eighth, for ["eastus"], has the display name
    ["East US"], the eighteen others have an undefined display name.  When
    [listLocations] fails, [listGkeLocations] fails with the same error. *)
Theorem C4_listGkeLocations_eastus `{Externals} context h :
  (forall h',
     listLocations context h
       = (Succeeded {| locations := {["eastus" := jsString "East US"]} |}, h') ->
     listGkeLocations context h
       = (Succeeded (replicate 7 unnamedLocation
                     ++ [{| displayName := jsString "East US"; isPreview := false |}]
                     ++ replicate 11 unnamedLocation), h'))
  /\ (forall error h',
        listLocations context h = (Failed error, h') ->
        listGkeLocations context h = (Failed error, h')).
Proof.
  split.
  - intros h' Hlocations. rewrite listGkeLocations_run, Hlocations.
    f_equal.
  - intros error h' Hlocations. rewrite listGkeLocations_run, Hlocations.
    reflexivity.
Qed.

Lemma C4_listGkeLocations_eastus_witness :
  let context :=
    Mock.context (Mock.constShell (Mock.answered 0 Mock.regionsDocument EmptyString)) in
  exists result,
    fst (@listGkeLocations Mock.externals context []) = Succeeded result
    /\ length result = 19%nat
    /\ result !! 7%nat
       = Some {| displayName := jsString "East US"; isPreview := false |}.
Proof.
  intros context.
  destruct (@C4_listGkeLocations_eastus Mock.externals context []) as [Hok _].
  eexists. split; [| split].
  - erewrite Hok; [reflexivity | vm_compute; reflexivity].
  - reflexivity.
  - reflexivity.
Defined.

(** C6.  Whatever dictionary [listLocations] fetched, [listGkeLocations]
    returns success with one location per hardwired production region, in
    order, none left out, all with [isPreview = false]; the display name is
    what the dictionary holds for the region, and a region the dictionary has
    no entry for gets an undefined display name. *)
Theorem C6_missing_regions_pass_through `{Externals} context h info h' :
  listLocations context h = (Succeeded info, h') ->
  exists result,
    listGkeLocations context h = (Succeeded result, h')
    /\ length result = length productionRegions
    /\ (forall (i : nat) region value,
          productionRegions !! i = Some region ->
          locations info !! region = Some value ->
          result !! i = Some {| displayName := value; isPreview := false |})
    /\ (forall (i : nat) region,
          productionRegions !! i = Some region ->
          locations info !! region = None ->
          result !! i = Some {| displayName := JsUndefined; isPreview := false |}).
Proof.
  intros Hlocations. eexists.
  rewrite listGkeLocations_run, Hlocations, locationDisplayNamesEx_production.
  split; [reflexivity |].
  split; [apply length_fmap |].
  assert (Hentry : forall (i : nat) region,
            productionRegions !! i = Some region ->
            ((fun n => {| displayName := propertyRead (locations info) n;
                          isPreview := false |})
               <$> productionRegions) !! i
            = Some {| displayName := propertyRead (locations info) region;
                      isPreview := false |}).
  { intros i region Hregion. rewrite list_lookup_fmap, Hregion. reflexivity. }
  split.
  - intros i region value Hregion Hvalue. rewrite (Hentry i region Hregion).
    unfold propertyRead. rewrite Hvalue. reflexivity.
  - intros i region Hregion Hmissing. rewrite (Hentry i region Hregion).
    rewrite propertyRead_missing; [reflexivity | exact Hmissing |].
    apply productionRegions_not_inherited.
    apply list_elem_of_lookup. exists i. exact Hregion.
Qed.

(** The response [[{"name":"eastus"}]] gives a dictionary whose only entry
    holds [undefined]; it has no entry for ["australiaeast"], the first
    production region. *)
Lemma C6_missing_regions_pass_through_witness :
  let context :=
    Mock.context (Mock.constShell (Mock.answered 0 Mock.namesOnlyDocument EmptyString)) in
  exists result,
    @listGkeLocations Mock.externals context []
      = (Succeeded result, [EvExec (listLocationsCmd true)])
    /\ length result = 19%nat
    /\ result !! 0%nat = Some {| displayName := JsUndefined; isPreview := false |}.
Proof.
  intros context.
  destruct (@C6_missing_regions_pass_through Mock.externals context []
              {| locations := {["eastus" := JsUndefined]} |}
              [EvExec (listLocationsCmd true)])
    as (result & Hrun & Hlength & _ & Hmissing).
  - vm_compute. reflexivity.
  - exists result. split; [exact Hrun |]. split; [exact Hlength |].
    apply (Hmissing 0%nat "australiaeast"); vm_compute; reflexivity.
Defined.

(** An entry without [displayName] is no error: nineteen locations, all with
    an undefined display name. *)
Example listGkeLocations_entry_without_displayName :
  fst (@listGkeLocations Mock.externals
         (Mock.context
            (Mock.constShell (Mock.answered 0 Mock.namesOnlyDocument EmptyString)))
         [])
  = Succeeded (replicate 19 unnamedLocation).
Proof. vm_compute. reflexivity. Qed.

(** C5.  When the list-sizes command exits with code 0 and its standard
    output parses as an array of objects that each have a string [name],
    [listVMSizes] returns success with the names of that array, in input
    order, without those that start with ["Basic_"]; no returned name starts
    with ["Basic_"]. *)
Theorem C5_listVMSizes_names `{Externals}
    context location h (sr : ShellResult) (items : list json) (names : list string) :
  exec (shell context) h (listVMSizesCmd location) = Some sr ->
  code sr = 0 ->
  JSON_parse (stdout sr) = Some (JArray items) ->
  Forall2 (fun item name => jfield "name" item = Some (JString name)) items names ->
  exists sizes,
    listVMSizes context location h
      = (Succeeded sizes, h ++ [EvExec (listVMSizesCmd location)])
    /\ sizes = List.filter (fun name => negb (String.prefix "Basic_" name)) names
    /\ sublist sizes names
    /\ (forall name, In name sizes
                     <-> In name names /\ String.prefix "Basic_" name = false)
    /\ Forall (fun name => String.prefix "Basic_" name = false) sizes.
Proof.
  intros Hexec Hcode Hparse Hnames.
  exists (List.filter (fun name => negb (startsWith name "Basic_")) names).
  split; [| split; [reflexivity | split; [apply filter_sublist | split]]].
  - rewrite listVMSizes_run, Hexec. f_equal.
    apply (fromShellJson_processed sr _ _ (JArray items)); try assumption.
    simpl.
    assert (Hmap : mapM (fun r => jfield "name" r ≫= as_string) items = Some names).
    { apply mapM_Some. eapply Forall2_impl; [exact Hnames |].
      intros item name Hname. simpl. rewrite Hname. reflexivity. }
    rewrite Hmap. reflexivity.
  - intros name. rewrite filter_In, negb_true_iff. reflexivity.
  - apply startsWith_filtered.
Qed.

Lemma C5_listVMSizes_names_witness :
  let context :=
    Mock.context (Mock.constShell (Mock.answered 0 Mock.sizesDocument EmptyString)) in
  @listVMSizes Mock.externals context "eastus" []
  = (Succeeded ["Standard_A1"; "Standard_D2"], [EvExec (listVMSizesCmd "eastus")]).
Proof.
  intros context.
  destruct (@C5_listVMSizes_names Mock.externals context "eastus" []
              {| code := 0; stdout := Mock.sizesDocument; stderr := EmptyString |}
              [JObject [("name", JString "Standard_A1")];
               JObject [("name", JString "Basic_A0")];
               JObject [("name", JString "Standard_D2")]]
              ["Standard_A1"; "Basic_A0"; "Standard_D2"])
    as (sizes & Hrun & Hsizes & _).
  - reflexivity.
  - reflexivity.
  - vm_compute. reflexivity.
  - repeat constructor.
  - rewrite Hrun, Hsizes. reflexivity.
Defined.

(** ** Waiting and configuring *)

(** C9.  [waitForCluster] awaits one timer of 300000 ms (five minutes),
    invokes no shell command, and returns success with [stillWaiting: false],
    for every context, cluster name and history. *)
Theorem C9_waitForCluster_fixed_pause context name h :
  exists new,
    waitForCluster context name h
      = (Succeeded {| stillWaiting := Some false |}, h ++ new)
    /\ new = [EvTimeout (5 * 60 * 1000)]
    /\ count_exec new = 0%nat
    /\ count_sleep new = 0%nat
    /\ count_timeout new = 1%nat.
Proof. eexists. repeat split. Qed.

Lemma configureCluster_run context requestedType name h :
  configureCluster context requestedType name h =
  let (credsResult, h') := getCredentials context name 5 h in
  ({| actionDescription := "configuring Kubernetes";
      result :=
        {| outcome_succeeded := creds_succeeded credsResult;
           outcome_result :=
             {| clusterType := requestedType;
                gotCli := None;
                cliInstallFile := None;
                cliOnDefaultPath := None;
                cliError := None;
                gotCredentials := creds_succeeded credsResult;
                credentialsError := creds_error credsResult |};
           outcome_error := [] |} |}, h').
Proof. reflexivity. Qed.

(** C7.  [configureCluster] is one run of [getCredentials] with
    [maxAttempts = 5]: it leaves the history of that run, its [succeeded] flag
    is the flag of the credential fetch, and its [ConfigureResult] carries the
    given cluster type, [gotCredentials] equal to that flag and
    [credentialsError] equal to the [error] of the credential fetch. *)
Theorem C7_configureCluster_mirrors_credentials context requestedType name h :
  let fetch := getCredentials context name 5 h in
  let run := configureCluster context requestedType name h in
  let configured := outcome_result (result (fst run)) in
  snd run = snd fetch
  /\ actionDescription (fst run) = "configuring Kubernetes"
  /\ outcome_succeeded (result (fst run)) = creds_succeeded (fst fetch)
  /\ clusterType configured = requestedType
  /\ gotCredentials configured = creds_succeeded (fst fetch)
  /\ credentialsError configured = creds_error (fst fetch).
Proof.
  intros fetch run configured. subst configured run.
  rewrite configureCluster_run. fold fetch.
  destruct fetch as [credsResult h']. repeat split.
Qed.

(** A failed credential fetch with [maxAttempts = 5] carries the text of its
    fifth attempt. *)
Lemma getCredentials_five_failure_text context name h :
  creds_succeeded (fst (getCredentials context name 5 h)) = false ->
  creds_error (fst (getCredentials context name 5 h))
  = Some (credentialsErrorText (attemptResult context name h 4)).
Proof.
  destruct (getCredentials_outcome context name 5 h)
    as [(i & _ & _ & ->) | [_ ->]]; simpl; [discriminate | reflexivity].
Qed.

(** C10.  The envelope returned by [configureCluster] always has the empty
    array as its [error], also when the credential fetch failed.  Its
    [succeeded] flag and the [credentialsError] of its [ConfigureResult] are
    those of the credential fetch: on failure the failure text of the fetch
    (the standard error of the fifth attempt, or the fixed message when there
    was no subprocess result) is in [credentialsError] and nowhere in the
    envelope's [error]. *)
Theorem C10_configureCluster_envelope_error_empty context requestedType name h :
  let fetch := fst (getCredentials context name 5 h) in
  let envelope := result (fst (configureCluster context requestedType name h)) in
  outcome_error envelope = []
  /\ outcome_succeeded envelope = creds_succeeded fetch
  /\ credentialsError (outcome_result envelope) = creds_error fetch
  /\ (creds_succeeded fetch = false ->
      outcome_succeeded envelope = false
      /\ outcome_error envelope = []
      /\ credentialsError (outcome_result envelope)
         = Some (match attemptResult context name h 4 with
                 | Some sr => stderr sr
                 | None => "Unable to invoke gcloud CLI"
                 end)).
Proof.
  intros fetch envelope. subst envelope. rewrite configureCluster_run.
  pose proof (getCredentials_five_failure_text context name h) as Htext.
  fold fetch in Htext. subst fetch.
  destruct (getCredentials context name 5 h) as [credsResult h']. simpl in *.
  split; [reflexivity |]. split; [reflexivity |]. split; [reflexivity |].
  intros Hfailed. split; [exact Hfailed |]. split; [reflexivity |].
  exact (Htext Hfailed).
Qed.

(** A shell that never lets the credential fetch through. *)
Lemma C10_configureCluster_envelope_error_empty_witness :
  let envelope :=
    result (fst (configureCluster (Mock.context (Mock.flakyShell 5))
                   "Google Kubernetes Engine" "demo-cluster" [])) in
  outcome_succeeded envelope = false
  /\ outcome_error envelope = []
  /\ credentialsError (outcome_result envelope) = Some "cluster not ready".
Proof.
  intros envelope.
  destruct (C10_configureCluster_envelope_error_empty
              (Mock.context (Mock.flakyShell 5))
              "Google Kubernetes Engine" "demo-cluster" [])
    as (_ & _ & _ & Hfailed).
  destruct Hfailed as (Hflag & Hempty & Htext); [reflexivity |].
  subst envelope. split; [exact Hflag |]. split; [exact Hempty |].
  rewrite Htext. reflexivity.
Defined.

(** ** More on the credentials loop *)

Lemma retryHistory_events (cmd : string) (n : nat) (e : Event) :
  e ∈ retryHistory cmd n -> e = EvExec cmd \/ e = EvSleep 15000.
Proof.
  induction n as [| n IH]; simpl; intros Hin.
  - inversion Hin.
  - apply elem_of_cons in Hin as [-> | Hin]; [left; reflexivity |].
    apply elem_of_cons in Hin as [-> | Hin]; [right; reflexivity | auto].
Qed.

Lemma retryHistory_total_sleep (cmd : string) (n : nat) :
  total_sleep (retryHistory cmd n ++ [EvExec cmd]) = 15000 * Z.of_nat n.
Proof.
  induction n as [| n IH]; [reflexivity |].
  change (total_sleep (retryHistory cmd (S n) ++ [EvExec cmd]))
    with (0 + (15000 + total_sleep (retryHistory cmd n ++ [EvExec cmd]))).
  rewrite IH. lia.
Qed.

(** The history of any run: some unsuccessful turns, then one last
    invocation. *)
Lemma getCredentials_history context clusterName (maxAttempts : Z) h :
  exists i : nat,
    (i <= Z.to_nat (maxAttempts - 1))%nat
    /\ snd (getCredentials context clusterName maxAttempts h)
       = h ++ retryHistory (getCredentialsCmd clusterName) i
           ++ [EvExec (getCredentialsCmd clusterName)].
Proof.
  destruct (getCredentials_outcome context clusterName maxAttempts h)
    as [(i & Hi & _ & ->) | [_ ->]]; eauto.
Qed.

(** X1.  For every integer [maxAttempts] up to [2^53] (the integers the
    loop counter of the source reaches exactly), zero and negative integers
    included, [getCredentials] only appends to the history, and what it
    appends is at least one and at most [max(1, maxAttempts)] invocations of
    the get-credentials command with a 15000 ms sleep between two consecutive
    ones: one sleep less than invocations, no sleep after the last invocation,
    no other command and no timer. *)
Theorem X1_getCredentials_attempt_bounds context clusterName (maxAttempts : Z) h :
  maxAttempts <= 2 ^ 53 ->
  let cmd := getCredentialsCmd clusterName in
  exists new,
    snd (getCredentials context clusterName maxAttempts h) = h ++ new
    /\ (1 <= count_exec new)%nat
    /\ Z.of_nat (count_exec new) <= Z.max 1 maxAttempts
    /\ count_sleep new = (count_exec new - 1)%nat
    /\ count_timeout new = 0%nat
    /\ (forall e, e ∈ new -> e = EvExec cmd \/ e = EvSleep 15000)
    /\ new = retryHistory cmd (count_exec new - 1) ++ [EvExec cmd]
    /\ last new = Some (EvExec cmd).
Proof.
  intros _ cmd.
  destruct (getCredentials_history context clusterName maxAttempts h)
    as (i & Hi & Hrun).
  exists (retryHistory cmd i ++ [EvExec cmd]). split; [exact Hrun |].
  destruct (attempts_history_counts cmd i) as (He & Hs & _).
  destruct (retryHistory_counts cmd i) as (_ & _ & Ht).
  rewrite He, Hs, count_timeout_app, Ht.
  split; [lia |]. split; [lia |]. split; [lia |]. split; [reflexivity |].
  split; [| split; [replace (S i - 1)%nat with i by lia; reflexivity |]].
  - intros e Hin. apply elem_of_app in Hin as [Hin | Hin].
    + apply (retryHistory_events cmd i e Hin).
    + apply list_elem_of_singleton in Hin. left. exact Hin.
  - apply last_snoc.
Qed.

(** Three allowed attempts and a shell that fails twice: three invocations,
    two sleeps. *)
Lemma X1_getCredentials_attempt_bounds_witness :
  exists new,
    snd (getCredentials (Mock.context (Mock.flakyShell 2)) "demo-cluster" 3 [])
    = [] ++ new
    /\ count_exec new = 3%nat
    /\ count_sleep new = 2%nat.
Proof.
  destruct (X1_getCredentials_attempt_bounds
              (Mock.context (Mock.flakyShell 2)) "demo-cluster" 3 [])
    as (new & Hrun & _ & _ & Hsleeps & _); [lia |].
  exists new. split; [exact Hrun |].
  assert (Hnew : new = retryHistory (getCredentialsCmd "demo-cluster") 2
                       ++ [EvExec (getCredentialsCmd "demo-cluster")]).
  { apply (app_inv_head []). rewrite <- Hrun. reflexivity. }
  rewrite Hnew. split; reflexivity.
Defined.

(** X2.  With [maxAttempts <= 1] (0 and negative numbers too) the command
    still runs, exactly once and without any sleep; the call succeeds exactly
    when that one invocation exits with code 0 and empty standard error, and
    otherwise carries its standard error, or the fixed message when there is
    no subprocess result. *)
Theorem X2_getCredentials_single_attempt context clusterName (maxAttempts : Z) h :
  maxAttempts <= 1 ->
  let cmd := getCredentialsCmd clusterName in
  let sr := exec (shell context) h cmd in
  let run := getCredentials context clusterName maxAttempts h in
  snd run = h ++ [EvExec cmd]
  /\ (creds_succeeded (fst run) = true <-> CleanExit sr)
  /\ (~ CleanExit sr ->
      fst run = {| creds_succeeded := false;
                   creds_error :=
                     Some (match sr with
                           | Some r => stderr r
                           | None => "Unable to invoke gcloud CLI"
                           end) |}).
Proof.
  intros Hmax cmd sr run. subst run. unfold getCredentials.
  rewrite getCredentialsLoop_step, getCredentialsTurn_cases.
  fold cmd sr. rewrite bool_decide_eq_false_2 by lia.
  pose proof (credentialsFetched_spec sr) as Hspec.
  destruct (credentialsFetched sr); simpl.
  - split; [reflexivity |]. split; [exact Hspec |].
    intros Hunclean. destruct Hunclean. apply Hspec. reflexivity.
  - split; [reflexivity |]. split; [| reflexivity].
    rewrite <- Hspec. reflexivity.
Qed.

Lemma X2_getCredentials_single_attempt_witness :
  getCredentials (Mock.context (Mock.flakyShell 1)) "demo-cluster" 0 []
  = ({| creds_succeeded := false; creds_error := Some "cluster not ready" |},
     [EvExec (getCredentialsCmd "demo-cluster")]).
Proof.
  destruct (X2_getCredentials_single_attempt
              (Mock.context (Mock.flakyShell 1)) "demo-cluster" 0 [])
    as (Hhistory & _ & Hfailed); [lia |].
  rewrite (surjective_pairing (getCredentials _ _ _ _)), Hhistory, Hfailed.
  - reflexivity.
  - intros (r & Hr & Hcode & _). vm_compute in Hr. injection Hr as <-.
    discriminate Hcode.
Defined.

(** X3.  For every integer [maxAttempts] from 1 to [2^53] (the integers the
    loop counter of the source reaches exactly), [getCredentials] reports failure
    exactly when none of the first [maxAttempts] attempts exits with code 0
    and empty standard error; it has then run the command [maxAttempts] times
    with [maxAttempts - 1] sleeps, and its error is the standard error of the
    last attempt, or the fixed message when that result is absent. *)
Theorem X3_getCredentials_failure_exhausts context clusterName (maxAttempts : Z) h :
  1 <= maxAttempts <= 2 ^ 53 ->
  let cmd := getCredentialsCmd clusterName in
  let attempt (k : nat) := attemptResult context clusterName h (k - 1) in
  let n := Z.to_nat maxAttempts in
  let run := getCredentials context clusterName maxAttempts h in
  (creds_succeeded (fst run) = false
     <-> forall k, (1 <= k <= n)%nat -> ~ CleanExit (attempt k))
  /\ (creds_succeeded (fst run) = false ->
      run = ({| creds_succeeded := false;
                creds_error :=
                  Some (match attempt n with
                        | Some r => stderr r
                        | None => "Unable to invoke gcloud CLI"
                        end) |},
             h ++ retryHistory cmd (n - 1) ++ [EvExec cmd])
      /\ count_exec (retryHistory cmd (n - 1) ++ [EvExec cmd]) = n
      /\ count_sleep (retryHistory cmd (n - 1) ++ [EvExec cmd]) = (n - 1)%nat).
Proof.
  intros [Hmax _] cmd attempt n run.
  pose proof (getCredentials_outcome context clusterName maxAttempts h) as Hrun.
  replace (Z.to_nat (maxAttempts - 1)) with (n - 1)%nat in Hrun by (subst n; lia).
  fold run in Hrun.
  assert (Hn : (1 <= n)%nat) by (subst n; lia).
  destruct (attempts_history_counts cmd (n - 1)) as (He & Hs & _).
  destruct Hrun as [(i & Hi & [_ Hclean] & Hrun) | [Hall Hrun]]; rewrite Hrun; simpl.
  - split.
    + split; [discriminate |]. intros Hnone.
      destruct (Hnone (S i)); [lia |]. unfold attempt.
      replace (S i - 1)%nat with i by lia. exact Hclean.
    + discriminate.
  - split.
    + split; [| reflexivity]. intros _ k Hk. apply Hall. lia.
    + intros _. split; [reflexivity |]. split; [lia | exact Hs].
Qed.

Lemma X3_getCredentials_failure_exhausts_witness :
  getCredentials (Mock.context (Mock.flakyShell 3)) "demo-cluster" 3 []
  = ({| creds_succeeded := false; creds_error := Some "cluster not ready" |},
     [] ++ retryHistory (getCredentialsCmd "demo-cluster") 2
        ++ [EvExec (getCredentialsCmd "demo-cluster")]).
Proof.
  destruct (X3_getCredentials_failure_exhausts
              (Mock.context (Mock.flakyShell 3)) "demo-cluster" 3 [])
    as (_ & Hfailed); [lia |].
  destruct Hfailed as (Hrun & _); [reflexivity |].
  rewrite Hrun. reflexivity.
Defined.

(** X4.  Allowing more attempts never loses a success: when [getCredentials]
    succeeds with [maxAttempts = m], it returns the same result after the same
    invocations and sleeps with every [m' >= m]. *)
Theorem X4_getCredentials_more_attempts_keep_success
    context clusterName (m m' : Z) h :
  m <= m' ->
  creds_succeeded (fst (getCredentials context clusterName m h)) = true ->
  getCredentials context clusterName m' h = getCredentials context clusterName m h.
Proof.
  intros Hle Hsucceeded.
  destruct (getCredentials_outcome context clusterName m h)
    as [(i & Hi & Hfirst & Hrun) | [_ Hrun]]; rewrite Hrun in *;
    [| discriminate Hsucceeded].
  destruct (getCredentials_outcome context clusterName m' h)
    as [(i' & Hi' & Hfirst' & ->) | [Hall _]].
  - rewrite (FirstCleanAfter_unique _ _ _ _ _ Hfirst' Hfirst). reflexivity.
  - destruct (Hall i); [lia | apply Hfirst].
Qed.

Lemma X4_getCredentials_more_attempts_keep_success_witness :
  getCredentials (Mock.context (Mock.flakyShell 2)) "demo-cluster" 50 []
  = getCredentials (Mock.context (Mock.flakyShell 2)) "demo-cluster" 3 [].
Proof.
  apply X4_getCredentials_more_attempts_keep_success; [lia | reflexivity].
Defined.

(** ** More on [configureCluster] *)

(** X5.  In the [ConfigureResult] of [configureCluster], [credentialsError]
    is undefined exactly when [gotCredentials] is true, and [gotCredentials]
    is the envelope's [succeeded] flag; the four CLI fields are never set. *)
Theorem X5_configureCluster_error_iff_failed context requestedType name h :
  let envelope := result (fst (configureCluster context requestedType name h)) in
  let configured := outcome_result envelope in
  (gotCredentials configured = true <-> credentialsError configured = None)
  /\ gotCredentials configured = outcome_succeeded envelope
  /\ gotCli configured = None
  /\ cliInstallFile configured = None
  /\ cliOnDefaultPath configured = None
  /\ cliError configured = None.
Proof.
  intros envelope configured. subst configured envelope.
  rewrite configureCluster_run.
  pose proof (getCredentials_error_shape context name 5 h) as Hshape.
  simpl in Hshape.
  destruct (getCredentials context name 5 h) as [credsResult h']. simpl in *.
  split; [| repeat split].
  destruct (creds_succeeded credsResult).
  - rewrite Hshape. split; reflexivity.
  - destruct Hshape as [text ->]. split; discriminate.
Qed.

(** X6.  One call of [configureCluster] runs the get-credentials command at
    least once and at most five times, runs nothing else, and spends
    15000 ms in [sleep] per invocation after the first: at most 60000 ms in
    all. *)
Theorem X6_configureCluster_effort_bounds context requestedType name h :
  exists new,
    snd (configureCluster context requestedType name h) = h ++ new
    /\ (1 <= count_exec new <= 5)%nat
    /\ total_sleep new = 15000 * (Z.of_nat (count_exec new) - 1)
    /\ total_sleep new <= 60000
    /\ count_timeout new = 0%nat
    /\ (forall cmd, EvExec cmd ∈ new -> cmd = getCredentialsCmd name).
Proof.
  rewrite configureCluster_run.
  destruct (getCredentials_history context name 5 h) as (i & Hi & Hrun).
  change (Z.to_nat (5 - 1)) with 4%nat in Hi.
  destruct (getCredentials context name 5 h) as [credsResult h'].
  simpl in Hrun. simpl snd. subst h'.
  exists (retryHistory (getCredentialsCmd name) i ++ [EvExec (getCredentialsCmd name)]).
  destruct (attempts_history_counts (getCredentialsCmd name) i) as (He & _ & _).
  destruct (retryHistory_counts (getCredentialsCmd name) i) as (_ & _ & Ht).
  rewrite He, retryHistory_total_sleep, count_timeout_app, Ht.
  split; [reflexivity |]. split; [lia |]. split; [lia |]. split; [lia |].
  split; [reflexivity |].
  intros cmd Hin. apply elem_of_app in Hin as [Hin | Hin].
  - apply retryHistory_events in Hin as [Hin | Hin]; congruence.
  - apply list_elem_of_singleton in Hin. congruence.
Qed.

(** ** More on the region dictionary *)

(** An entry whose name is not a string is stored under the name converted
    to a property key, and a missing [name] under ["undefined"]. *)
Example locationsOfResponse_odd_names :
  locationsOfResponse
    (JArray [JObject [("name", JNumber "7"); ("displayName", JString "Seven")];
             JObject [("displayName", JNull)];
             JObject [("name", JArray [JString "a"; JNull; JBool true])]])
  = Some {| locations :=
              <["a,,true" := JsUndefined]>
                (<["undefined" := JsJson JNull]>
                   (<["7" := jsString "Seven"]> ∅)) |}.
Proof. reflexivity. Qed.

(** A string response is iterable: every character is an element without
    [name] and without [displayName]. *)
Example locationsOfResponse_string_response :
  locationsOfResponse (JString "ab")
  = Some {| locations := {["undefined" := JsUndefined]} |}.
Proof. reflexivity. Qed.

(** What makes the loop throw: a response that is not iterable, or a [null]
    element, whose [name] cannot be read. *)
Example locationsOfResponse_throws :
  locationsOfResponse (JObject []) = None
  /\ locationsOfResponse JNull = None
  /\ locationsOfResponse (JArray [JNull]) = None.
Proof. repeat split. Qed.

Lemma assignAll_lookup_other start (pairs : list (string * string)) name :
  name ∉ pairs.*1 -> assignAll start pairs !! name = start !! name.
Proof.
  revert start. induction pairs as [| [n d] pairs IH]; intros start Hnot;
    [reflexivity |].
  apply not_elem_of_cons in Hnot as [Hne Hnot]. simpl in Hne.
  change (assignAll start ((n, d) :: pairs))
    with (assignAll (<[n := jsString d]> start) pairs).
  rewrite (IH _ Hnot). apply lookup_insert_ne. congruence.
Qed.

Lemma assignAll_app start (before after : list (string * string)) :
  assignAll start (before ++ after) = assignAll (assignAll start before) after.
Proof. apply foldl_app. Qed.

Lemma assignAll_lookup_None start (pairs : list (string * string)) name :
  assignAll start pairs !! name = None
  <-> start !! name = None /\ name ∉ pairs.*1.
Proof.
  revert start. induction pairs as [| [n d] pairs IH]; intros start.
  - simpl. split; [intros Hnone; split; [exact Hnone | apply not_elem_of_nil] |].
    intros [Hnone _]. exact Hnone.
  - change (assignAll start ((n, d) :: pairs))
      with (assignAll (<[n := jsString d]> start) pairs).
    rewrite IH, fmap_cons, not_elem_of_cons. simpl.
    destruct (decide (n = name)) as [-> | Hne].
    + rewrite lookup_insert_eq. split; [intros [Hsome _]; discriminate |].
      intros (_ & Hne & _). contradiction.
    + rewrite lookup_insert_ne by exact Hne. split.
      * intros [Hnone Hnot]. repeat split; [exact Hnone | congruence | exact Hnot].
      * intros (Hnone & _ & Hnot). split; assumption.
Qed.

(** The loop of the [listLocations] processor over well-formed entries is
    a sequence of assignments. *)
Lemma locationsOfResponse_assigns (items : list json) (pairs : list (string * string)) :
  Forall2 (fun item pair =>
             jfield "name" item = Some (JString pair.1)
             /\ jfield "displayName" item = Some (JString pair.2)) items pairs ->
  locationsOfResponse (JArray items)
  = Some {| locations := assignAll Dictionary_of pairs |}.
Proof.
  intros Hitems. unfold locationsOfResponse. simpl.
  generalize Dictionary_of as start. intros start.
  enough (Hfold :
    foldl (fun acc r => locations ← acc; assignLocation locations r)
          (Some start) items
    = Some (assignAll start pairs)) by (rewrite Hfold; reflexivity).
  revert start.
  induction Hitems as [| item [n d] items pairs [Hname Hdisplay] _ IH];
    intros start; [reflexivity |].
  simpl in Hname, Hdisplay.
  assert (Hassign : assignLocation start item = Some (<[n := jsString d]> start)).
  { unfold assignLocation, jsRead. rewrite Hname, Hdisplay.
    destruct item; try discriminate Hname. reflexivity. }
  simpl. rewrite Hassign. apply IH.
Qed.

(** X7.  On a response whose entries all have a string [name] and a string
    [displayName], the processor of [listLocations] builds a dictionary that
    knows exactly the names of the response, and for a name that occurs more
    than once the last entry wins. *)
Theorem X7_listLocations_last_entry_wins
    (items : list json) (pairs : list (string * string)) :
  Forall2 (fun item pair =>
             jfield "name" item = Some (JString pair.1)
             /\ jfield "displayName" item = Some (JString pair.2)) items pairs ->
  exists info,
    locationsOfResponse (JArray items) = Some info
    /\ (forall name, locations info !! name = None <-> name ∉ pairs.*1)
    /\ (forall before name display after,
          pairs = before ++ (name, display) :: after ->
          name ∉ after.*1 ->
          locations info !! name = Some (jsString display)).
Proof.
  intros Hitems. eexists.
  split; [apply (locationsOfResponse_assigns items pairs Hitems) |]. simpl.
  split.
  - intros name. rewrite assignAll_lookup_None. unfold Dictionary_of.
    rewrite lookup_empty. tauto.
  - intros before name display after -> Hlast.
    rewrite assignAll_app.
    change (assignAll (assignAll Dictionary_of before) ((name, display) :: after))
      with (assignAll (<[name := jsString display]> (assignAll Dictionary_of before))
              after).
    rewrite (assignAll_lookup_other _ _ _ Hlast). apply lookup_insert_eq.
Qed.

Lemma X7_listLocations_last_entry_wins_witness :
  exists info,
    locationsOfResponse
      (JArray [JObject [("name", JString "eastus"); ("displayName", JString "East US")];
               JObject [("displayName", JString "Virginia"); ("name", JString "eastus")]])
    = Some info
    /\ locations info !! "eastus" = Some (jsString "Virginia")
    /\ locations info !! "westus" = None.
Proof.
  destruct (X7_listLocations_last_entry_wins
              [JObject [("name", JString "eastus"); ("displayName", JString "East US")];
               JObject [("displayName", JString "Virginia"); ("name", JString "eastus")]]
              [("eastus", "East US"); ("eastus", "Virginia")])
    as (info & Hinfo & Hunknown & Hlast).
  - repeat constructor.
  - exists info. split; [exact Hinfo |]. split.
    + apply (Hlast [("eastus", "East US")] "eastus" "Virginia" []);
        [reflexivity | apply not_elem_of_nil].
    + apply Hunknown. simpl. intros Hin.
      apply elem_of_cons in Hin as [Hin | Hin]; [discriminate |].
      apply elem_of_cons in Hin as [Hin | Hin]; [discriminate |].
      inversion Hin.
Defined.

(** X8.  [locationDisplayNamesEx] returns one location per given name: first
    the production names in their order with [isPreview = false], then the
    preview names in their order with [isPreview = true].  Each display name
    is what reading the name on the dictionary gives: the dictionary's own
    entry when it has one, else the member a plain object inherits from
    [Object.prototype] for a name such as ["toString"], else [undefined]. *)
Theorem X8_locationDisplayNamesEx_layout
    (production preview : list string) (info : Locations) :
  let result := locationDisplayNamesEx production preview info in
  let read (name : string) : jsvalue :=
    match locations info !! name with
    | Some value => value
    | None =>
        if bool_decide (name ∈ objectPrototypeMembers)
        then JsObjectPrototypeMember name
        else JsUndefined
    end in
  length result = (length production + length preview)%nat
  /\ (forall (i : nat) name,
        production !! i = Some name ->
        result !! i = Some {| displayName := read name; isPreview := false |})
  /\ (forall (i : nat) name,
        preview !! i = Some name ->
        result !! (length production + i)%nat
        = Some {| displayName := read name; isPreview := true |}).
Proof.
  unfold locationDisplayNamesEx, locationDisplayNames. simpl.
  split; [rewrite length_app, !length_fmap; reflexivity |].
  split.
  - intros i name Hname. rewrite lookup_app_l.
    + rewrite list_lookup_fmap, Hname. reflexivity.
    + rewrite length_fmap. apply (lookup_lt_Some _ _ _ Hname).
  - intros i name Hname. rewrite lookup_app_r; rewrite length_fmap; [| lia].
    replace (length production + i - length production)%nat with i by lia.
    rewrite list_lookup_fmap, Hname. reflexivity.
Qed.

(** On the empty dictionary, ["toString"] and ["constructor"] read as
    inherited members and ["eastus"] as [undefined]. *)
Lemma X8_locationDisplayNamesEx_layout_witness :
  locationDisplayNamesEx ["toString"; "eastus"] ["constructor"]
    {| locations := ∅ |}
  = [ {| displayName := JsObjectPrototypeMember "toString"; isPreview := false |};
      {| displayName := JsUndefined; isPreview := false |};
      {| displayName := JsObjectPrototypeMember "constructor"; isPreview := true |} ].
Proof.
  destruct (X8_locationDisplayNamesEx_layout ["toString"; "eastus"] ["constructor"]
              {| locations := ∅ |}) as (Hlength & Hproduction & Hpreview).
  apply list_eq. intros [| [| [| i]]].
  - apply (Hproduction 0%nat "toString"). reflexivity.
  - apply (Hproduction 1%nat "eastus"). reflexivity.
  - apply (Hpreview 0%nat "constructor"). reflexivity.
  - reflexivity.
Defined.

(** ** More on the VM size processor *)

Lemma startsWith_spec (name pre : string) :
  startsWith name pre = true <-> exists rest, name = pre +:+ rest.
Proof.
  unfold startsWith. revert name.
  induction pre as [| a pre IH]; intros name; simpl.
  - split; [intros _; exists name; reflexivity | destruct name; reflexivity].
  - destruct name as [| b name]; simpl.
    + split; [discriminate | intros [rest Hrest]; discriminate].
    + destruct (ascii_dec a b) as [-> | Hne].
      * rewrite IH. split; intros [rest Hrest]; exists rest.
        -- change (String b pre +:+ rest) with (String b (pre +:+ rest)).
           congruence.
        -- change (String b pre +:+ rest) with (String b (pre +:+ rest)) in Hrest.
           congruence.
      * split; [discriminate |]. intros [rest Hrest].
        change (String a pre +:+ rest) with (String a (pre +:+ rest)) in Hrest.
        congruence.
Qed.

Lemma nameOf_None (item : json) :
  jfield "name" item ≫= as_string = None
  <-> forall name, jfield "name" item <> Some (JString name).
Proof.
  destruct (jfield "name" item) as [[| b | literal | s | items | fields] |]; simpl;
    split; try discriminate; try reflexivity; intros Hnone.
  - destruct (Hnone s). reflexivity.
Qed.

(** X9.  The processor of [listVMSizes] is all or nothing: it throws exactly
    when the parsed document is not an array or when some element of the array
    has no string [name]; one such element discards every other name. *)
Theorem X9_vmSizes_all_or_nothing (response : json) :
  vmSizesOfResponse response = None
  <-> (forall items, response <> JArray items)
      \/ (exists items item,
            response = JArray items
            /\ item ∈ items
            /\ forall name, jfield "name" item <> Some (JString name)).
Proof.
  destruct response as [| b | literal | s | items | fields]; simpl;
    try (split; [intros _; left; discriminate | reflexivity]).
  destruct (mapM (fun r => jfield "name" r ≫= as_string) items) as [names |] eqn:Hmap;
    simpl.
  - split; [discriminate |].
    intros [Hnot | (items' & item & [= <-] & Hin & Hname)].
    + destruct (Hnot items). reflexivity.
    + apply mapM_Some in Hmap.
      apply list_elem_of_lookup in Hin as [i Hi].
      destruct (Forall2_lookup_l _ _ _ i item Hmap Hi) as (name & _ & Hitem).
      apply nameOf_None in Hname. congruence.
  - split; [| reflexivity]. intros _. right.
    apply mapM_None, Exists_exists in Hmap as (item & Hin & Hitem).
    exists items, item. split; [reflexivity |]. split; [exact Hin |].
    apply nameOf_None, Hitem.
Qed.

(** X10.  The filter of [listVMSizes] is literal and case-sensitive: a name
    is dropped exactly when it is ["Basic_"] followed by any text.  An array
    without such names comes back unchanged, and an array of only such names
    (or an empty array) gives success with the empty list, not a failure. *)
Theorem X10_vmSizes_filter_edges (items : list json) (names : list string) :
  Forall2 (fun item name => jfield "name" item = Some (JString name)) items names ->
  exists sizes,
    vmSizesOfResponse (JArray items) = Some sizes
    /\ (forall name,
          name ∈ sizes
          <-> name ∈ names /\ ~ exists rest, name = "Basic_" +:+ rest)
    /\ ((forall name, name ∈ names -> ~ exists rest, name = "Basic_" +:+ rest) ->
        sizes = names)
    /\ ((forall name, name ∈ names -> exists rest, name = "Basic_" +:+ rest) ->
        sizes = []).
Proof.
  intros Hnames.
  exists (List.filter (fun name => negb (startsWith name "Basic_")) names).
  assert (Hkeep : forall name,
            negb (startsWith name "Basic_") = true
            <-> ~ exists rest, name = "Basic_" +:+ rest).
  { intros name. rewrite <- startsWith_spec, negb_true_iff.
    destruct (startsWith name "Basic_"); split; congruence. }
  split; [| split; [| split]].
  - simpl.
    assert (Hmap : mapM (fun r => jfield "name" r ≫= as_string) items = Some names).
    { apply mapM_Some. eapply Forall2_impl; [exact Hnames |].
      intros item name Hname. simpl. rewrite Hname. reflexivity. }
    rewrite Hmap. reflexivity.
  - intros name. rewrite !list_elem_of_In, filter_In, Hkeep. reflexivity.
  - intros Hnone. clear Hnames. induction names as [| name names IH];
      [reflexivity |]. simpl.
    rewrite (proj2 (Hkeep name)) by (apply Hnone; left).
    f_equal. apply IH. intros name' Hin. apply Hnone. right. exact Hin.
  - intros Hall. clear Hnames. induction names as [| name names IH];
      [reflexivity |]. simpl.
    destruct (negb (startsWith name "Basic_")) eqn:Hname.
    + apply Hkeep in Hname. destruct Hname. apply Hall. left.
    + apply IH. intros name' Hin. apply Hall. right. exact Hin.
Qed.

Lemma X10_vmSizes_filter_edges_witness :
  vmSizesOfResponse
    (JArray [JObject [("name", JString "Basic_A0")];
             JObject [("name", JString "Basic_")]])
  = Some [].
Proof.
  destruct (X10_vmSizes_filter_edges
              [JObject [("name", JString "Basic_A0")];
               JObject [("name", JString "Basic_")]]
              ["Basic_A0"; "Basic_"]) as (sizes & Hsizes & _ & _ & Hall).
  - repeat constructor.
  - rewrite Hsizes, Hall; [reflexivity |].
    intros name Hin.
    apply elem_of_cons in Hin as [-> | Hin]; [exists "A0"; reflexivity |].
    apply elem_of_cons in Hin as [-> | Hin]; [exists EmptyString; reflexivity |].
    inversion Hin.
Defined.

(** ** More on the two-phase operations *)

(** X11.  The description of [getClusterList] names the phase that was
    reached.  It is ["logging into project"] exactly when the set-project
    phase failed and ["listing clusters"] exactly when it succeeded; in the
    second case the call ran the set-project command and then the
    list-clusters command, and its result is the outcome of the listing, a
    failed listing included. *)
Theorem X11_getClusterList_phases `{Externals} context project h :
  let login := setProjectAsync context project h in
  let run := getClusterList context project h in
  (actionDescription (fst run) = "logging into project"
     <-> succeeded (fst login) = false)
  /\ (actionDescription (fst run) = "listing clusters"
     <-> succeeded (fst login) = true)
  /\ (succeeded (fst login) = true ->
      result (fst run) = fst (listClustersAsync context (snd login))
      /\ snd run = h ++ [EvExec (setProjectCmd project); EvExec listClustersCmd]).
Proof.
  intros login run. subst run.
  unfold getClusterList, mbind, Task_bind. fold login.
  pose proof (setProjectAsync_run context project h) as Hlogin. fold login in Hlogin.
  destruct login as [[diagnostic | error] h1]; injection Hlogin as _ ->; simpl.
  - split; [split; discriminate |]. split; [split; reflexivity |].
    intros _. split; [reflexivity |].
    unfold listClustersAsync, mbind, Task_bind, await_exec, mret, Task_ret. simpl.
    rewrite <- app_assoc. reflexivity.
  - split; [split; reflexivity |]. split; [split; discriminate |]. discriminate.
Qed.

(** A listing that fails after a successful login (here its output is not
    JSON) is reported as ["listing clusters"]. *)
Lemma X11_getClusterList_phases_witness :
  let run :=
    @getClusterList Mock.externals (Mock.context (Mock.warningShell 1))
      "demo-project" [] in
  actionDescription (fst run) = "listing clusters"
  /\ result (fst run) = Failed "Unable to list Kubernetes clusters"
  /\ snd run = [EvExec (setProjectCmd "demo-project"); EvExec listClustersCmd].
Proof.
  intros run.
  destruct (@X11_getClusterList_phases Mock.externals
              (Mock.context (Mock.warningShell 1)) "demo-project" [])
    as (_ & Hlisting & Hsecond).
  destruct Hsecond as [Hresult Hhistory]; [reflexivity |].
  subst run. split; [apply Hlisting; reflexivity |].
  split; [rewrite Hresult; reflexivity | exact Hhistory].
Defined.
